(** * dlnap: the XML-to-tree parser, the path query, the device descriptor,
      the SOAP control channel and the SSDP discovery loop of
      [dlnap/__init__.py], embedded as Rocq functions.

    Python [str] values are lists of Unicode code points, [bytes] values are
    lists of octets.  Exceptions are an explicit result type; calls into the
    network and into the [re], [urllib] and codec libraries are fields of a
    [World] record. *)

From Stdlib Require Import List NArith ZArith Bool Arith Lia.
From Stdlib Require String Ascii DecimalString.
Import ListNotations.
Import String.StringSyntax.
Delimit Scope string_scope with string.

Set Implicit Arguments.

(** ** Python strings *)

Module PyStr.

(** A code point. *)
Definition char := N.
(** A Python [str]. *)
Definition str := list char.
(** A Python [bytes]. *)
Definition bytes := list N.

(** ASCII literals. *)
Definition py (s : String.string) : str :=
  map Ascii.N_of_ascii (String.list_ascii_of_string s).
Arguments py s%_string.

Definition ch_lt : char := 60%N.      (* '<' *)
Definition ch_gt : char := 62%N.      (* '>' *)
Definition ch_space : char := 32%N.   (* ' ' *)
Definition ch_slash : char := 47%N.   (* '/' *)
Definition ch_quote : char := 34%N.   (* the double quote *)
Definition ch_cr : char := 13%N.
Definition ch_nl : char := 10%N.
Definition ch_at : char := 64%N.      (* '@' *)
Definition ch_eq : char := 61%N.      (* '=' *)

Fixpoint str_eqb (a b : str) : bool :=
  match a, b with
  | [], [] => true
  | c :: a', d :: b' => N.eqb c d && str_eqb a' b'
  | _, _ => false
  end.

(** [x.startswith(p)] *)
Fixpoint startswith (x p : str) : bool :=
  match p, x with
  | [], _ => true
  | c :: p', d :: x' => N.eqb c d && startswith x' p'
  | _ :: _, [] => false
  end.

(** [x.endswith(p)] *)
Definition endswith (x p : str) : bool := startswith (rev x) (rev p).

(** [v[:-n]] for a positive literal [n]; Python gives [''] for [v[:-0]]. *)
Definition slice_to_neg (v : str) (n : nat) : str :=
  match n with
  | 0 => []
  | _ => firstn (length v - n) v
  end.

(** The code points [str.strip()] removes: those with [str.isspace()]. *)
Definition isspace (c : char) : bool :=
  ((9 <=? c) && (c <=? 13) || (28 <=? c) && (c <=? 32)
   || (c =? 133) || (c =? 160) || (c =? 5760)
   || (8192 <=? c) && (c <=? 8202)
   || (c =? 8232) || (c =? 8233) || (c =? 8239) || (c =? 8287)
   || (c =? 12288))%N.

Fixpoint lstrip (x : str) : str :=
  match x with
  | [] => []
  | c :: x' => if isspace c then lstrip x' else x
  end.

Definition rstrip (x : str) : str := rev (lstrip (rev x)).

(** [x.strip()] *)
Definition strip (x : str) : str := rstrip (lstrip x).

(** [x.replace(old, new)] for a non-empty [old]: the occurrences of [old]
    are found from the left and do not overlap.  [fuel] bounds the number of
    characters still to be looked at. *)
Fixpoint replace_from (fuel : nat) (x old new : str) : str :=
  match fuel with
  | 0 => x
  | S fuel' =>
      match x with
      | [] => []
      | c :: x' =>
          if startswith x old
          then new ++ replace_from fuel' (skipn (length old) x) old new
          else c :: replace_from fuel' x' old new
      end
  end.

Definition replace (x old new : str) : str :=
  replace_from (length x) x old new.

(** [needle in hay] on two strings. *)
Fixpoint contains (hay needle : str) : bool :=
  startswith hay needle ||
  match hay with
  | [] => false
  | _ :: hay' => contains hay' needle
  end.

(** [x.split(sep)] for a one-character separator. *)
Fixpoint split_acc (sep : char) (x cur : str) : list str :=
  match x with
  | [] => [cur]
  | c :: x' =>
      if N.eqb c sep then cur :: split_acc sep x' []
      else split_acc sep x' (cur ++ [c])
  end.

Definition split (sep : char) (x : str) : list str := split_acc sep x [].

(** [sep.join(parts)] *)
Fixpoint join (sep : str) (parts : list str) : str :=
  match parts with
  | [] => []
  | [p] => p
  | p :: rest => p ++ sep ++ join sep rest
  end.

(** Number of space characters, used as a termination measure. *)
Fixpoint spaces (x : str) : nat :=
  match x with
  | [] => 0
  | c :: x' => (if N.eqb c ch_space then 1 else 0) + spaces x'
  end.

End PyStr.
Import PyStr.

(** ** XML to tree: [_get_tag_value] *)

(** [while i < len(x) and x[i] != '<': i += 1], run on [rest = x[i:]]. *)
Fixpoint skip_to_lt (rest : str) (i : nat) : nat :=
  match rest with
  | [] => i
  | c :: rest' => if N.eqb c ch_lt then i else skip_to_lt rest' (S i)
  end.

(** The two tag-reading loops of the source are the same loop:
[[
    while i < len(x) and x[i] != '>':
        if x[i] == ' ': in_attr = True
        if not in_attr: tag += x[i]
        i += 1
]]
    run on [rest = x[i:]]. *)
Fixpoint read_tag (rest : str) (i : nat) (in_attr : bool) (tag : str)
  : nat * str :=
  match rest with
  | [] => (i, tag)
  | c :: rest' =>
      if N.eqb c ch_gt then (i, tag)
      else
        let in_attr := if N.eqb c ch_space then true else in_attr in
        let tag := if in_attr then tag else tag ++ [c] in
        read_tag rest' (S i) in_attr tag
  end.

(** The content loop:
[[
    while i < len(x):
        value += x[i]
        if x[i] == '>' and value.endswith('</' + tag + '>'):
            close_tag_len = len(tag) + 2
            value = value[:-close_tag_len]
            break
        i += 1
]]
    run on [rest = x[i:]]. *)
Fixpoint scan_value (rest : str) (i : nat) (tag value : str) : nat * str :=
  match rest with
  | [] => (i, value)
  | c :: rest' =>
      let value := value ++ [c] in
      if N.eqb c ch_gt && endswith value (py "</" ++ tag ++ py ">")
      then (i, slice_to_neg value (length tag + 2))
      else scan_value rest' (S i) tag value
  end.

Definition _get_tag_value (x : str) (i : nat) : str * str * str :=
  let x := strip x in
  (* skip <? > tag *)
  let i :=
    if startswith (skipn i x) (py "<?")
    then skip_to_lt (skipn (i + 2) x) (i + 2)
    else i in
  (* check for empty tag like '</tag>' *)
  if startswith (skipn i x) (py "</") then
    let '(i, tag) := read_tag (skipn (i + 2) x) (i + 2) false [] in
    (strip tag, [], skipn (i + 1) x)
  (* not an xml, treat like a value *)
  else if negb (startswith (skipn i x) (py "<")) then
    ([], skipn i x, [])
  else
    let i := i + 1 in
    (* read first open tag *)
    let '(i, tag) := read_tag (skipn i x) i false [] in
    let i := i + 1 in
    (* replace self-closing <tag/> by <tag>None</tag> *)
    let empty_elmt := py "<" ++ tag ++ py " />" in
    let closed_elmt := py "<" ++ tag ++ py ">None</" ++ tag ++ py ">" in
    let x := if startswith x empty_elmt
             then replace x empty_elmt closed_elmt else x in
    let '(i, value) := scan_value (skipn i x) i tag [] in
    (strip tag, slice_to_neg value 1, skipn (i + 1) x).

(** ** XML to tree: [_xml2dict] *)

(** A child of a tag is a leaf string or a nested tree; a tree is a Python
    [dict] from tag names to the list of children, kept in insertion order. *)
#[warnings="-register-all"] Inductive node : Type :=
| Leaf (s : str)
| Tree (d : list (str * list node)).

Definition dict := list (str * list node).

Fixpoint dict_get (d : dict) (k : str) : option (list node) :=
  match d with
  | [] => None
  | (k', v) :: d' => if str_eqb k k' then Some v else dict_get d' k
  end.

(** [k in d] *)
Definition dict_mem (d : dict) (k : str) : bool :=
  match dict_get d k with Some _ => true | None => false end.

(** [d[k] = v] *)
Fixpoint dict_set (d : dict) (k : str) (v : list node) : dict :=
  match d with
  | [] => [(k, v)]
  | (k', v') :: d' =>
      if str_eqb k k' then (k', v) :: d' else (k', v') :: dict_set d' k v
  end.

(** [d[k].append(c)]; the source only does this right after it has made
    sure that [k] is a key. *)
Fixpoint dict_append (d : dict) (k : str) (c : node) : dict :=
  match d with
  | [] => []
  | (k', v) :: d' =>
      if str_eqb k k' then (k', v ++ [c]) :: d'
      else (k', v) :: dict_append d' k c
  end.

(** [if tag not in _dict: _dict[tag] = []] *)
Definition dict_setdefault (d : dict) (k : str) : dict :=
  if dict_mem d k then d else dict_set d k [].

(** The [while xml_string:] loop of [_xml2dict], with the recursive call on
    the content of a tag.  [fuel] bounds the depth of the calls; [None] means
    that the fuel ran out, which [xml2dict_fuel_enough] excludes. *)
Fixpoint _xml2dict_loop (fuel : nat) (_dict : dict) (xml_string : str)
  : option dict :=
  match fuel with
  | 0 => None
  | S fuel' =>
      match xml_string with
      | [] => Some _dict
      | _ :: _ =>
          let '(tag, value, xml_string') := _get_tag_value xml_string 0 in
          let value := strip value in
          let '(is_xml, _, _) := _get_tag_value value 0 in
          let _dict := dict_setdefault _dict tag in
          match is_xml with
          | [] =>
              match value with
              | [] => _xml2dict_loop fuel' _dict xml_string'
              | _ :: _ =>
                  _xml2dict_loop fuel'
                    (dict_append _dict tag (Leaf (strip value))) xml_string'
              end
          | _ :: _ =>
              let _dict := dict_setdefault _dict tag in
              match _xml2dict_loop fuel' [] value with
              | None => None
              | Some sub =>
                  _xml2dict_loop fuel'
                    (dict_append _dict tag (Tree sub)) xml_string'
              end
          end
      end
  end.

(** Fuel that is always enough: see [xml2dict_fuel_enough]. *)
Definition fuel_bound (xml_string : str) : nat :=
  (length xml_string + 1) * 2 ^ spaces xml_string.

(** The [re.findall] call of [_xml2dict]: its pattern lazily skips
    characters and then captures from a ['<'] to the end of the line ([.]
    does not match a newline), so there is one match per line that has a
    ['<'], and its group is the line from its first ['<'] on. *)
Fixpoint from_first_lt (line : str) : str :=
  match line with
  | [] => []
  | c :: line' => if N.eqb c ch_lt then line else from_first_lt line'
  end.

Definition findall_from_lt (s : str) : list str :=
  filter (fun g => negb (str_eqb g [])) (map from_first_lt (split ch_nl s)).

Definition _xml2dict (xml_string : str) (ignore_until_xml : bool) : dict :=
  let xml_string :=
    if ignore_until_xml then join [] (findall_from_lt xml_string)
    else xml_string in
  match _xml2dict_loop (fuel_bound xml_string) [] xml_string with
  | Some _dict => _dict
  | None => []
  end.

(** ** The interpreter's recursion limit *)

(** What a call of [_xml2dict] ends with under an interpreter that bounds
    the depth of the call stack: the tree, or [RecursionError]. *)
Inductive parse_result : Type :=
| Parsed (d : dict)
| RecursionError.

(** The loop of [_xml2dict] run with room for [limit] more nested calls of
    [_xml2dict]: the call [_xml2dict(value)] on the content of a tag raises
    [RecursionError] when no room is left, and nothing in [_xml2dict]
    catches it.  [fuel] is as in [_xml2dict_loop]. *)
Fixpoint _xml2dict_limited (fuel limit : nat) (_dict : dict)
  (xml_string : str) : option parse_result :=
  match fuel with
  | 0 => None
  | S fuel' =>
      match xml_string with
      | [] => Some (Parsed _dict)
      | _ :: _ =>
          let '(tag, value, xml_string') := _get_tag_value xml_string 0 in
          let value := strip value in
          let '(is_xml, _, _) := _get_tag_value value 0 in
          let _dict := dict_setdefault _dict tag in
          match is_xml with
          | [] =>
              match value with
              | [] => _xml2dict_limited fuel' limit _dict xml_string'
              | _ :: _ =>
                  _xml2dict_limited fuel' limit
                    (dict_append _dict tag (Leaf (strip value))) xml_string'
              end
          | _ :: _ =>
              let _dict := dict_setdefault _dict tag in
              match limit with
              | 0 => Some RecursionError
              | S limit' =>
                  match _xml2dict_limited fuel' limit' [] value with
                  | None => None
                  | Some RecursionError => Some RecursionError
                  | Some (Parsed sub) =>
                      _xml2dict_limited fuel' limit
                        (dict_append _dict tag (Tree sub)) xml_string'
                  end
              end
          end
      end
  end.

(** How deep the trees below a node are nested: one more than the deepest
    child for a tree, nothing for a leaf. *)
Fixpoint node_depth (n : node) : nat :=
  match n with
  | Leaf _ => 0
  | Tree d =>
      S (fold_right
           (fun (kv : str * list node) m =>
              Nat.max
                (fold_right (fun c m' => Nat.max (node_depth c) m') 0 (snd kv))
                m)
           0 d)
  end.

Definition children_depth (children : list node) : nat :=
  fold_right (fun c m => Nat.max (node_depth c) m) 0 children.

(** The number of nested calls of [_xml2dict] that built the dict [d]. *)
Definition dict_depth (d : dict) : nat :=
  fold_right (fun (kv : str * list node) m =>
                Nat.max (children_depth (snd kv)) m) 0 d.

(** ** Exceptions *)

Inductive exn : Type :=
| TypeError | KeyError | IndexError | ValueError
| UnicodeError | OSError | ReError
| GettingResponseFailed.   (* Exception('Getting response failed') *)

Inductive Exc (A : Type) : Type :=
| Ok (a : A)
| Raise (e : exn).
Arguments Ok {A} a.
Arguments Raise {A} e.

Definition bind {A B : Type} (m : Exc A) (k : A -> Exc B) : Exc B :=
  match m with
  | Ok a => k a
  | Raise e => Raise e
  end.

Notation "x <- m ;; k" := (bind m (fun x => k))
  (at level 61, m at next level, right associativity).

(** ** Path query: [_xpath] *)

(** [tag in xml_dict]: a key test on a dict, a substring test on a str. *)
Definition node_contains (xml_dict : node) (tag : str) : bool :=
  match xml_dict with
  | Leaf s => contains s tag
  | Tree d => dict_mem d tag
  end.

(** [xml_dict[tag]] with a str index. *)
Definition node_getitem (xml_dict : node) (tag : str) : Exc (list node) :=
  match xml_dict with
  | Leaf _ => Raise TypeError
  | Tree d =>
      match dict_get d tag with
      | Some v => Ok v
      | None => Raise KeyError
      end
  end.

(** [v == [aval]] for a list of children [v]. *)
Definition eq_single (v : list node) (aval : str) : bool :=
  match v with
  | [Leaf s] => str_eqb s aval
  | _ => false
  end.

(** The predicate loop
[[
    for s in xml_dict[tag]:
        if s[a] == [aval]:
            xml_dict = s
            break
]]
    [Ok None] is the loop running to its end without a [break]. *)
Fixpoint select_child (children : list node) (a aval : str)
  : Exc (option node) :=
  match children with
  | [] => Ok None
  | s :: children' =>
      v <- node_getitem s a ;;
      if eq_single v aval then Ok (Some s)
      else select_child children' a aval
  end.

(** The body of [for p in path.split('/')], once per segment.  The result is
    [None] for Python's [None]. *)
Fixpoint xpath_segments (xml_dict : node) (segments : list str)
  : Exc (option node) :=
  match segments with
  | [] => Ok (Some xml_dict)
  | p :: segments' =>
      let tag_attr := split ch_at p in
      let tag := nth 0 tag_attr [] in
      if negb (node_contains xml_dict tag) then Ok None
      else
        let attr := if 1 <? length tag_attr then nth 1 tag_attr [] else [] in
        match attr with
        | _ :: _ =>
            match split ch_eq attr with
            | [a; aval] =>
                children <- node_getitem xml_dict tag ;;
                found <- select_child children a aval ;;
                match found with
                | Some s => xpath_segments s segments'
                | None => xpath_segments xml_dict segments'
                end
            | _ => Raise ValueError
            end
        | [] =>
            children <- node_getitem xml_dict tag ;;
            match children with
            | c :: _ => xpath_segments c segments'
            | [] => Raise IndexError
            end
        end
  end.

Definition _xpath (xml_dict : node) (path : str) : Exc (option node) :=
  xpath_segments xml_dict (split ch_slash path).

(** ** Module constants and small helpers *)

Definition __version__ : str := py "0.15.0".
Definition SSDP_GROUP : str * Z := (py "239.255.255.250", 1900%Z).
Definition URN_AVTransport : str :=
  py "urn:schemas-upnp-org:service:AVTransport:1".
Definition URN_RenderingControl : str :=
  py "urn:schemas-upnp-org:service:RenderingControl:1".

(** [str(n)] of an int. *)
Definition str_of_Z (z : Z) : str :=
  py (DecimalString.NilZero.string_of_int (Z.to_int z)).

Definition URN_AVTransport_Fmt (version : Z) : str :=
  py "urn:schemas-upnp-org:service:AVTransport:" ++ str_of_Z version.
Definition URN_RenderingControl_Fmt (version : Z) : str :=
  py "urn:schemas-upnp-org:service:RenderingControl:" ++ str_of_Z version.

Definition _get_control_url (xml : node) (urn : str) : Exc (option node) :=
  _xpath xml
    (py "root/device/serviceList/service@serviceType=" ++ urn
     ++ py "/controlURL").

Definition _unescape_xml (xml : str) : str :=
  replace (replace (replace xml (py "&lt;") (py "<")) (py "&gt;") (py ">"))
    (py "&quot;") [ch_quote].

(** [s.encode('utf-8')]: lone surrogates cannot be encoded. *)
Definition utf8_char (c : char) : Exc bytes :=
  (if c <? 128 then Ok [c]
   else if c <? 2048 then Ok [192 + c / 64; 128 + c mod 64]
   else if (55296 <=? c) && (c <=? 57343) then Raise UnicodeError
   else if c <? 65536 then
     Ok [224 + c / 4096; 128 + (c / 64) mod 64; 128 + c mod 64]
   else
     Ok [240 + c / 262144; 128 + (c / 4096) mod 64;
         128 + (c / 64) mod 64; 128 + c mod 64])%N.

Fixpoint str_encode (s : str) : Exc bytes :=
  match s with
  | [] => Ok []
  | c :: s' =>
      b <- utf8_char c ;;
      bs <- str_encode s' ;;
      Ok (b ++ bs)
  end.

(** ** The outside world *)

(** What the code calls and does not define: codecs, [re], [urllib], the
    sockets, and the module attribute [__file__]. *)
Record World : Type := {
  bytes_decode : bytes -> Exc str;          (* [b.decode()] *)
  re_findall_location : str -> Exc (list str);
                       (* [re.findall] with the pattern of [_get_location_url] *)
  re_findall_port : str -> Exc (list str);
                       (* [re.findall] with the pattern of [_get_port] *)
  int_of_str : str -> Exc Z;                (* [int(s)] *)
  urlopen_read : str -> Exc bytes;          (* [urlopen(url).read()] *)
  str_of_dict : dict -> str;                (* [str(d)] of a dict *)
  tcp_connect : str * option Z -> Exc unit; (* [sock.connect(to)] *)
  tcp_sendall : bytes -> Exc unit;          (* [sock.sendall(data)] *)
  tcp_recv : nat -> Exc bytes;              (* [sock.recv(n)] *)
  udp_sendto : bytes -> str * Z -> Exc unit;(* [sock.sendto(data, group)] *)
  __file__ : str
}.

Inductive level : Type := WARNING | ERROR.

Inductive logmsg : Type :=
| MsgNode (n : node)      (* a value handed to the logger *)
| MsgExc (e : exn).       (* the traceback of an exception *)

Definition log_record : Type := level * logmsg.

Definition _get_port (w : World) (location : str) : Exc Z :=
  port <- re_findall_port w location ;;
  match port with
  | p :: _ => int_of_str w p
  | [] => Ok 80%Z
  end.

Definition _get_location_url (w : World) (raw : str) : Exc str :=
  t <- re_findall_location w raw ;;
  match t with
  | l :: _ => Ok l
  | [] => Ok []
  end.

(** ** Control channel: [_send_tcp] *)

(** What [_send_tcp] returns: the parsed response, or the str it falls back
    to. *)
Inductive tcp_data : Type :=
| DataStr (s : str)
| DataTree (d : dict).

Definition fault_path : str :=
  py "s:Envelope/s:Body/s:Fault/detail/UPnPError/errorDescription".

(** The [try] block of [_send_tcp]. *)
Definition send_tcp_try (w : World) (to : str * option Z) (payload : str)
  : Exc (dict * list log_record) :=
  _ <- tcp_connect w to ;;
  encoded <- str_encode payload ;;
  _ <- tcp_sendall w encoded ;;
  data <- tcp_recv w 2048 ;;
  data <- bytes_decode w data ;;
  let data := _xml2dict (_unescape_xml data) true in
  error_description <- _xpath (Tree data) fault_path ;;
  match error_description with
  | Some e => Ok (data, [(ERROR, MsgNode e)])
  | None => Ok (data, [])
  end.

Definition _send_tcp (w : World) (to : str * option Z) (payload : str)
  : tcp_data * list log_record :=
  match send_tcp_try w to payload with
  | Ok (data, log) => (DataTree data, log)
  | Raise _ => (DataStr [], [])
  end.

(** ** Device descriptor: [DLNADevice] *)

(** The public attributes of a [DLNADevice].  [location] is only assigned
    inside the [try] block, so it may be missing ([None] here).  [name] and
    the control URLs hold whatever [_xpath] returned. *)
Record DLNADevice : Type := {
  ip : str;
  ssdp_version : Z;
  port : option Z;
  name : node;
  control_url : option node;
  rendering_control_url : option node;
  has_av_transport : bool;
  location : option str
}.

Definition set_ssdp_version (v : Z) (d : DLNADevice) : DLNADevice :=
  {| ip := ip d; ssdp_version := v; port := port d; name := name d;
     control_url := control_url d;
     rendering_control_url := rendering_control_url d;
     has_av_transport := has_av_transport d; location := location d |}.
Definition set_port (v : option Z) (d : DLNADevice) : DLNADevice :=
  {| ip := ip d; ssdp_version := ssdp_version d; port := v; name := name d;
     control_url := control_url d;
     rendering_control_url := rendering_control_url d;
     has_av_transport := has_av_transport d; location := location d |}.
Definition set_name (v : node) (d : DLNADevice) : DLNADevice :=
  {| ip := ip d; ssdp_version := ssdp_version d; port := port d; name := v;
     control_url := control_url d;
     rendering_control_url := rendering_control_url d;
     has_av_transport := has_av_transport d; location := location d |}.
Definition set_control_url (v : option node) (d : DLNADevice) : DLNADevice :=
  {| ip := ip d; ssdp_version := ssdp_version d; port := port d;
     name := name d; control_url := v;
     rendering_control_url := rendering_control_url d;
     has_av_transport := has_av_transport d; location := location d |}.
Definition set_rendering_control_url (v : option node) (d : DLNADevice)
  : DLNADevice :=
  {| ip := ip d; ssdp_version := ssdp_version d; port := port d;
     name := name d; control_url := control_url d;
     rendering_control_url := v;
     has_av_transport := has_av_transport d; location := location d |}.
Definition set_has_av_transport (v : bool) (d : DLNADevice) : DLNADevice :=
  {| ip := ip d; ssdp_version := ssdp_version d; port := port d;
     name := name d; control_url := control_url d;
     rendering_control_url := rendering_control_url d;
     has_av_transport := v; location := location d |}.
Definition set_location (v : option str) (d : DLNADevice) : DLNADevice :=
  {| ip := ip d; ssdp_version := ssdp_version d; port := port d;
     name := name d; control_url := control_url d;
     rendering_control_url := rendering_control_url d;
     has_av_transport := has_av_transport d; location := v |}.

(** Statements that assign attributes of [self] and may raise: the object
    keeps what has been assigned when an exception leaves the block. *)
Module Init.

Definition M (A : Type) : Type := DLNADevice -> DLNADevice * Exc A.

Definition ret {A : Type} (a : A) : M A := fun self => (self, Ok a).

Definition bind {A B : Type} (m : M A) (k : A -> M B) : M B :=
  fun self =>
    match m self with
    | (self', Ok a) => k a self'
    | (self', Raise e) => (self', Raise e)
    end.

(** A call that does not touch [self]. *)
Definition call {A : Type} (e : Exc A) : M A := fun self => (self, e).

(** [self.attr = v] *)
Definition assign (f : DLNADevice -> DLNADevice) : M unit :=
  fun self => (f self, Ok tt).

End Init.

Notation "x <~ m ;; k" := (Init.bind m (fun x => k))
  (at level 61, m at next level, right associativity).
Notation "m ;;; k" := (Init.bind m (fun _ => k))
  (at level 61, right associativity).

Definition _get_friendly_name (xml : node) : Exc node :=
  name <- _xpath xml (py "root/device/friendlyName") ;;
  match name with
  | Some n => Ok n
  | None => Ok (Leaf (py "Unknown"))
  end.

(** The attribute assignments before the [try] block of [__init__]. *)
Definition init_defaults (ip : str) : DLNADevice :=
  {| ip := ip; ssdp_version := 1; port := None;
     name := Leaf (py "Unknown"); control_url := None;
     rendering_control_url := None; has_av_transport := false;
     location := None |}.

(** The [try] block of [__init__] (the logger calls and the private
    attributes [__raw] and [__desc_xml] are left out). *)
Definition init_try (w : World) (raw : bytes) : Init.M unit :=
  raw' <~ Init.call (bytes_decode w raw) ;;
  loc <~ Init.call (_get_location_url w raw') ;;
  Init.assign (set_location (Some loc)) ;;;
  p <~ Init.call (_get_port w loc) ;;
  Init.assign (set_port (Some p)) ;;;
  page <~ Init.call (urlopen_read w loc) ;;
  raw_desc_xml <~ Init.call (bytes_decode w page) ;;
  let desc_xml := Tree (_xml2dict raw_desc_xml false) in
  n <~ Init.call (_get_friendly_name desc_xml) ;;
  Init.assign (set_name n) ;;;
  cu <~ Init.call (_get_control_url desc_xml URN_AVTransport) ;;
  Init.assign (set_control_url cu) ;;;
  rcu <~ Init.call (_get_control_url desc_xml URN_RenderingControl) ;;
  Init.assign (set_rendering_control_url rcu) ;;;
  Init.assign
    (set_has_av_transport (match cu with Some _ => true | None => false end)).

(** [DLNADevice(raw, ip)]: the [except Exception] clause logs a warning and
    the constructor returns normally. *)
Definition DLNADevice__init__ (w : World) (raw : bytes) (ip : str)
  : DLNADevice * list log_record :=
  match init_try w raw (init_defaults ip) with
  | (self, Ok _) => (self, [])
  | (self, Raise e) => (self, [(WARNING, MsgExc e)])
  end.

(** Python's [==] on the values [_xpath] returns: strings by content, dicts
    by their key sets and the values under each key, lists element-wise. *)
Fixpoint node_eqb (x y : node) : bool :=
  match x, y with
  | Leaf a, Leaf b => str_eqb a b
  | Tree d1, Tree d2 =>
      (length d1 =? length d2)
      && forallb
           (fun kv : str * list node =>
              match dict_get d2 (fst kv) with
              | Some v2 =>
                  (fix list_eqb (l1 l2 : list node) : bool :=
                     match l1, l2 with
                     | [], [] => true
                     | a :: l1', b :: l2' => node_eqb a b && list_eqb l1' l2'
                     | _, _ => false
                     end) (snd kv) v2
              | None => false
              end) d1
  | _, _ => false
  end.

(** [DLNADevice.__eq__] *)
Definition DLNADevice__eq__ (self d : DLNADevice) : bool :=
  node_eqb (name self) (name d) && str_eqb (ip self) (ip d).

(** The class defines [__eq__] and no [__hash__]; Python then sets its
    [__hash__] to [None], and hashing an instance raises [TypeError]. *)
Definition DLNADevice__hash__ : option (DLNADevice -> Z) := None.

(** [hash(device)] *)
Definition py_hash (device : DLNADevice) : Exc Z :=
  match DLNADevice__hash__ with
  | Some h => Ok (h device)
  | None => Raise TypeError
  end.

(** A Python [set] of devices, in insertion order. *)
Definition device_set : Type := list DLNADevice.

(** [device in devices]: the element is hashed first. *)
Definition set_contains (devices : device_set) (device : DLNADevice)
  : Exc bool :=
  h <- py_hash device ;;
  Ok (existsb
        (fun e => match py_hash e with
                  | Ok h' => (h' =? h)%Z && DLNADevice__eq__ e device
                  | Raise _ => false
                  end) devices).

(** [devices.add(device)] *)
Definition set_add (devices : device_set) (device : DLNADevice)
  : Exc device_set :=
  present <- set_contains devices device ;;
  Ok (if present then devices else devices ++ [device]).

(** ** Control channel: packets and actions *)

(** The values of the field dictionaries handed to [_create_packet]. *)
Inductive pyval : Type :=
| VInt (z : Z)
| VStr (s : str).

(** ['{}'.format(v)] *)
Definition format_val (v : pyval) : str :=
  match v with
  | VInt z => str_of_Z z
  | VStr s => s
  end.

Definition format_node (w : World) (n : option node) : str :=
  match n with
  | None => py "None"
  | Some (Leaf s) => s
  | Some (Tree d) => str_of_dict w d
  end.

Definition format_port (p : option Z) : str :=
  match p with
  | None => py "None"
  | Some z => str_of_Z z
  end.

(** The loop [for tag, value in data.items(): fields += ...]. *)
Fixpoint format_fields (data : list (str * pyval)) : str :=
  match data with
  | [] => []
  | (tag, value) :: data' =>
      (py "<" ++ tag ++ py ">" ++ format_val value
       ++ py "</" ++ tag ++ py ">") ++ format_fields data'
  end.

Definition _payload_from_template (action : str) (data : list (str * pyval))
  (urn : str) : str :=
  let fields := format_fields data in
  let encoding_style := py "http://schemas.xmlsoap.org/soap/encoding/" in
  py "<?xml version=" ++ [ch_quote] ++ py "1.0" ++ [ch_quote]
  ++ py " encoding=" ++ [ch_quote] ++ py "utf-8" ++ [ch_quote] ++ py "?>"
  ++ [ch_nl]
  ++ py "         <s:Envelope xmlns:s=" ++ [ch_quote]
  ++ py "http://schemas.xmlsoap.org/soap/envelope/" ++ [ch_quote]
  ++ py " s:encodingStyle=" ++ [ch_quote] ++ encoding_style ++ [ch_quote]
  ++ py ">" ++ [ch_nl]
  ++ py "            <s:Body>" ++ [ch_nl]
  ++ py "               <u:" ++ action ++ py " xmlns:u=" ++ [ch_quote]
  ++ urn ++ [ch_quote] ++ py ">" ++ [ch_nl]
  ++ py "                  " ++ fields ++ [ch_nl]
  ++ py "               </u:" ++ action ++ py ">" ++ [ch_nl]
  ++ py "            </s:Body>" ++ [ch_nl]
  ++ py "         </s:Envelope>".

(** The text of the template before and after [{fields}]. *)
Definition envelope_head (action urn : str) : str :=
  py "<?xml version=" ++ [ch_quote] ++ py "1.0" ++ [ch_quote]
  ++ py " encoding=" ++ [ch_quote] ++ py "utf-8" ++ [ch_quote] ++ py "?>"
  ++ [ch_nl]
  ++ py "         <s:Envelope xmlns:s=" ++ [ch_quote]
  ++ py "http://schemas.xmlsoap.org/soap/envelope/" ++ [ch_quote]
  ++ py " s:encodingStyle=" ++ [ch_quote]
  ++ py "http://schemas.xmlsoap.org/soap/encoding/" ++ [ch_quote]
  ++ py ">" ++ [ch_nl]
  ++ py "            <s:Body>" ++ [ch_nl]
  ++ py "               <u:" ++ action ++ py " xmlns:u=" ++ [ch_quote]
  ++ urn ++ [ch_quote] ++ py ">" ++ [ch_nl]
  ++ py "                  ".

Definition envelope_tail (action : str) : str :=
  [ch_nl]
  ++ py "               </u:" ++ action ++ py ">" ++ [ch_nl]
  ++ py "            </s:Body>" ++ [ch_nl]
  ++ py "         </s:Envelope>".

Definition crlf : str := [ch_cr; ch_nl].

(** The endpoint and the URN [_create_packet] picks for an action. *)
Definition packet_target (self : DLNADevice) (action : str)
  : option node * str :=
  if existsb (str_eqb action) [py "SetVolume"; py "SetMute"; py "GetVolume"]
  then (rendering_control_url self,
        URN_RenderingControl_Fmt (ssdp_version self))
  else (control_url self, URN_AVTransport_Fmt (ssdp_version self)).

(** The list that [_create_packet] joins with CR LF. *)
Definition packet_lines (w : World) (self : DLNADevice) (action : str)
  (data : list (str * pyval)) : list str :=
  let '(url, urn) := packet_target self action in
  let payload := _payload_from_template action data urn in
  [ py "POST " ++ format_node w url ++ py " HTTP/1.1";
    py "User-Agent: " ++ __file__ w ++ py "/" ++ __version__;
    py "Accept: */*";
    py "Content-Type: text/xml; charset=" ++ [ch_quote] ++ py "utf-8"
      ++ [ch_quote];
    py "HOST: " ++ ip self ++ py ":" ++ format_port (port self);
    py "Content-Length: " ++ str_of_Z (Z.of_nat (length payload));
    py "SOAPACTION: " ++ [ch_quote] ++ urn ++ py "#" ++ action ++ [ch_quote];
    py "Connection: close";
    [];
    payload ].

Definition _create_packet (w : World) (self : DLNADevice) (action : str)
  (data : list (str * pyval)) : str :=
  join crlf (packet_lines w self action data).

(** The packet of [set_volume(volume, instance_id)]. *)
Definition set_volume_packet (w : World) (self : DLNADevice)
  (volume instance_id : pyval) : str :=
  _create_packet w self (py "SetVolume")
    [(py "InstanceID", instance_id); (py "DesiredVolume", volume);
     (py "Channel", VStr (py "Master"))].

Definition set_volume (w : World) (self : DLNADevice)
  (volume instance_id : pyval) : list log_record :=
  snd (_send_tcp w (ip self, port self)
         (set_volume_packet w self volume instance_id)).

(** The first packet of [play_media(url, instance_id)]. *)
Definition play_media_packet (w : World) (self : DLNADevice)
  (url : str) (instance_id : pyval) : str :=
  _create_packet w self (py "SetAVTransportURI")
    [(py "InstanceID", instance_id); (py "CurrentURI", VStr url);
     (py "CurrentURIMetaData", VStr [])].

(** ** Discovery session: [get_dlnas] *)

(** What one turn of the discovery loop meets: whether the caller has
    invoked the cancellation handle before the loop test, the reading of
    [time.monotonic()] in the loop test, and what [select] reports for the
    socket within its one-second timeout. *)
Inductive select_result : Type :=
| Readable (data : bytes) (addr : str)   (* [sock in r], and what
                                            [recvfrom] then returns *)
| Exceptional                            (* [sock in x] only *)
| TimedOut.

Record tick : Type := {
  stop_requested : bool;
  now : Z;
  ready : select_result
}.

Inductive event : Type :=
| EvSendto (data : bytes)
| EvSelect
| EvRecvfrom
| EvCallback (device : DLNADevice).

(** The [while keep_scanning and time.monotonic() < scan_for:] loop.  The
    result is [None] only when the list of ticks ends while the loop is
    still running.  The ticks hold what [select] and [recvfrom] return: a
    call of theirs that raises is not among them, and the fetch that the
    constructor makes goes through the oracles of [w] without an event of
    its own. *)
Fixpoint discovery_loop (w : World) (ssdp_version : Z)
  (callback : option (DLNADevice -> Exc unit))
  (keep_scanning : bool) (scan_for : Z) (ticks : list tick)
  (devices : device_set) (trace : list event)
  : option (Exc device_set * list event) :=
  if negb keep_scanning then Some (Ok devices, trace)
  else
    match ticks with
    | [] => None
    | tk :: ticks' =>
        if stop_requested tk then Some (Ok devices, trace)
        else if negb (now tk <? scan_for)%Z then Some (Ok devices, trace)
        else
          let trace := trace ++ [EvSelect] in
          match ready tk with
          | Readable data addr =>
              let trace := trace ++ [EvRecvfrom] in
              let device :=
                set_ssdp_version ssdp_version
                  (fst (DLNADevice__init__ w data addr)) in
              match set_contains devices device with
              | Raise e => Some (Raise e, trace)
              | Ok true =>
                  discovery_loop w ssdp_version callback true scan_for
                    ticks' devices trace
              | Ok false =>
                  let called :=
                    match callback with
                    | Some f => (f device, trace ++ [EvCallback device])
                    | None => (Ok tt, trace)
                    end in
                  match called with
                  | (Raise e, trace) => Some (Raise e, trace)
                  | (Ok _, trace) =>
                      match set_add devices device with
                      | Raise e => Some (Raise e, trace)
                      | Ok devices' =>
                          discovery_loop w ssdp_version callback true
                            scan_for ticks' devices' trace
                      end
                  end
              end
          | Exceptional => Some (Raise GettingResponseFailed, trace)
          | TimedOut =>
              discovery_loop w ssdp_version callback true scan_for ticks'
                devices trace
          end
    end.

(** The M-SEARCH request of [get_dlnas]. *)
Definition msearch_payload (w : World) (st : str) (mx : Z) : str :=
  join crlf
    [ py "M-SEARCH * HTTP/1.1";
      py "User-Agent: " ++ __file__ w ++ py "/" ++ __version__;
      py "HOST: " ++ fst SSDP_GROUP ++ py ":" ++ str_of_Z (snd SSDP_GROUP);
      py "Accept: */*";
      py "MAN: " ++ [ch_quote] ++ py "ssdp:discover" ++ [ch_quote];
      py "ST: " ++ st;
      py "MX: " ++ str_of_Z mx;
      [];
      [] ].

(** The closure [_discovery]; [keep_scanning] is the variable of the
    enclosing [get_dlnas] that it reads, [clock0] the reading of
    [time.monotonic()] from which the deadline is computed. *)
Definition _discovery (w : World) (clock0 : Z) (ticks : list tick)
  (payload : str) (scan_for : Z) (ssdp_version : Z)
  (callback : option (DLNADevice -> Exc unit)) (keep_scanning : bool)
  : option (Exc device_set * list event) :=
  match str_encode payload with
  | Raise e => Some (Raise e, [])
  | Ok encoded =>
      match udp_sendto w encoded SSDP_GROUP with
      | Raise e => Some (Raise e, [])
      | Ok _ =>
          let scan_for := (clock0 + scan_for)%Z in
          discovery_loop w ssdp_version callback keep_scanning scan_for
            ticks [] [EvSendto encoded]
      end
  end.

(** What [get_dlnas] hands back: the device set of [_discovery] when
    blocking, the handle [_stop_discovery] otherwise (the outcome of the
    discovery thread is then kept beside it). *)
Inductive dlnas_result : Type :=
| Devices (r : Exc device_set)
| StopHandle (thread : Exc device_set).

(** [get_dlnas(scan_for, st, mx, ssdp_version, blocking, callback)]; [st]
    is the template already applied to its argument by [st.format]. *)
Definition get_dlnas (w : World) (clock0 : Z) (ticks : list tick)
  (scan_for : Z) (st : Z -> str) (mx : Z) (ssdp_version : Z)
  (blocking : bool) (callback : option (DLNADevice -> Exc unit))
  : option (dlnas_result * list event) :=
  let st := st ssdp_version in
  let payload := msearch_payload w st mx in
  let keep_scanning := false in
  match _discovery w clock0 ticks payload scan_for ssdp_version callback
          keep_scanning with
  | None => None
  | Some (r, trace) =>
      Some (if blocking then Devices r else StopHandle r, trace)
  end.

(** The (tag, stripped content) pairs that the loop of [_xml2dict] extracts
    at the top level of [xml_string], in order. *)
Fixpoint extractions (fuel : nat) (xml_string : str) : list (str * str) :=
  match fuel with
  | 0 => []
  | S fuel' =>
      match xml_string with
      | [] => []
      | _ :: _ =>
          let '(tag, value, xml_string') := _get_tag_value xml_string 0 in
          (tag, strip value) :: extractions fuel' xml_string'
      end
  end.

Definition top_level (xml_string : str) : list (str * str) :=
  extractions (fuel_bound xml_string) xml_string.

(** The tag of the first segment of a path. *)
Definition first_tag (path : str) : str :=
  nth 0 (split ch_at (nth 0 (split ch_slash path) [])) [].

(** The steps of the [try] block of [__init__] up to the description
    document. *)
Definition fetch_description (w : World) (raw : bytes) : Exc str :=
  raw' <- bytes_decode w raw ;;
  loc <- _get_location_url w raw' ;;
  _ <- _get_port w loc ;;
  page <- urlopen_read w loc ;;
  bytes_decode w page.

(** ** Concrete inputs for the examples *)

Module Samples.

(** A decoder for responses that are plain ASCII. *)
Definition ascii_decode (b : bytes) : Exc str :=
  if forallb (fun c => (c <? 128)%N) b then Ok b else Raise UnicodeError.

(** A world in which the device at 192.168.1.50 serves [page] as its
    description and answers a control request with [reply]. *)
Definition world (page : Exc bytes) (connect : Exc unit) (reply : Exc bytes)
  : World :=
  {| bytes_decode := ascii_decode;
     re_findall_location := fun _ => Ok [py "http://192.168.1.50:80/desc.xml"];
     re_findall_port := fun _ => Ok [py "80"];
     int_of_str := fun _ => Ok 80%Z;
     urlopen_read := fun _ => page;
     str_of_dict := fun _ => py "{}";
     tcp_connect := fun _ => connect;
     tcp_sendall := fun _ => Ok tt;
     tcp_recv := fun _ => reply;
     udp_sendto := fun _ _ => Ok tt;
     __file__ := py "dlnap/__init__.py" |}.

Definition response : bytes :=
  py "HTTP/1.1 200 OK" ++ crlf
  ++ py "LOCATION: http://192.168.1.50:80/desc.xml" ++ crlf ++ crlf.

(** A description whose second service has no [serviceType]. *)
Definition desc_partial : str :=
  py "<root><device><friendlyName>TV</friendlyName><serviceList><service><serviceType>urn:schemas-upnp-org:service:AVTransport:1</serviceType><controlURL>/ctrl</controlURL></service><service><controlURL>/rc</controlURL></service></serviceList></device></root>".

(** A description with both services. *)
Definition desc_full : str :=
  py "<root><device><friendlyName>TV</friendlyName><serviceList><service><serviceType>urn:schemas-upnp-org:service:AVTransport:1</serviceType><controlURL>/ctrl</controlURL></service><service><serviceType>urn:schemas-upnp-org:service:RenderingControl:1</serviceType><controlURL>/rc</controlURL></service></serviceList></device></root>".

(** A SOAP fault as a renderer sends it. *)
Definition fault_reply : bytes :=
  py "HTTP/1.1 500 Internal Server Error" ++ crlf ++ crlf
  ++ py "<s:Envelope><s:Body><s:Fault><faultcode>s:Client</faultcode><faultstring>UPnPError</faultstring><detail><UPnPError><errorCode>718</errorCode><errorDescription>Invalid InstanceID</errorDescription></UPnPError></detail></s:Fault></s:Body></s:Envelope>".

Definition tv (control rendering : str) : DLNADevice :=
  {| ip := py "192.168.1.50"; ssdp_version := 1; port := Some 80%Z;
     name := Leaf (py "TV"); control_url := Some (Leaf control);
     rendering_control_url := Some (Leaf rendering);
     has_av_transport := true;
     location := Some (py "http://192.168.1.50:80/desc.xml") |}.

(** A media URL with a non-ASCII character (U+00E9). *)
Definition url_e_acute : str :=
  py "http://192.168.1.2/caf" ++ [233%N] ++ py ".mp3".

(** One tick in which the socket is readable well before the deadline. *)
Definition tick_readable : tick :=
  {| stop_requested := false; now := 0%Z;
     ready := Readable response (py "192.168.1.50") |}.

(** A tree with one service, of type [X]. *)
Definition one_service : node :=
  Tree [(py "service",
         [Tree [(py "serviceType", [Leaf (py "X")]);
                (py "controlURL", [Leaf (py "/c")])]])].

End Samples.

(** ** Definitions for the further properties *)

(** ** Well-formedness conditions used in the properties *)

(** No character of [s] is [c]. *)
Definition lacks (c : char) (s : str) : bool :=
  forallb (fun d => negb (N.eqb d c)) s.

(** A tag name the tag-reading loop hands back unchanged: no ['>'], no
    space, unchanged by [strip], and not starting with ['?'] or ['/']. *)
Definition plain_name (name : str) : bool :=
  lacks ch_gt name && lacks ch_space name
  && str_eqb (strip name) name
  && negb (startswith name (py "?")) && negb (startswith name (py "/")).

(** What may stand between a tag name and the ['>'] of an opening tag:
    nothing, or a space and attribute text without ['>'] that is not just
    ["/"]. *)
Definition plain_attrs (attrs : str) : bool :=
  match attrs with
  | [] => true
  | c :: a => N.eqb c ch_space && lacks ch_gt a && negb (str_eqb a (py "/"))
  end.

(** What may stand before the element: nothing, or a processing
    instruction ["<?" ...] up to the next ['<']. *)
Definition plain_prolog (prolog : str) : bool :=
  match prolog with
  | [] => true
  | _ => startswith prolog (py "<?") && lacks ch_lt (skipn 2 prolog)
  end.

(** The closing sequence of a tag. *)
Definition closing (name : str) : str := py "</" ++ name ++ py ">".

(** Leaf text as [_xml2dict] keeps it: not empty, unchanged by [strip], and
    with no ['<'] and no ['>']. *)
Definition plain_text (v : str) : bool :=
  negb (str_eqb v []) && str_eqb (strip v) v
  && lacks ch_lt v && lacks ch_gt v.

(** What the loop of [_xml2dict] does for a list of flat fields: make sure
    the tag is a key, then append the value as a leaf. *)
Fixpoint fields_dict (d : dict) (data : list (str * pyval)) : dict :=
  match data with
  | [] => d
  | (tag, value) :: data' =>
      fields_dict
        (dict_append (dict_setdefault d tag) tag (Leaf (format_val value)))
        data'
  end.

(** The leaves that the fields with tag [tag] contribute, in order. *)
Definition leaves_for (tag : str) (data : list (str * pyval)) : list node :=
  map (fun kv => Leaf (format_val (snd kv)))
    (filter (fun kv => str_eqb tag (fst kv)) data).

(** A field the parser reads back as written. *)
Definition plain_field (kv : str * pyval) : bool :=
  plain_name (fst kv) && plain_text (format_val (snd kv)).

(** A URN that can stand in a path segment: no ['/'], ['@'] or ['=']. *)
Definition plain_urn (urn : str) : bool :=
  lacks ch_slash urn && lacks ch_at urn && lacks ch_eq urn.

(** The children of [c] under [a] exist and are not exactly [[aval]]. *)
Definition other_value (a aval : str) (c : node) : Prop :=
  exists u, node_getitem c a = Ok u /\ eq_single u aval = false.

Module Samples2.

Definition service_av : dict :=
  [(py "serviceType", [Leaf URN_AVTransport]);
   (py "controlURL", [Leaf (py "/ctrl")])].

Definition service_rc : dict :=
  [(py "serviceType", [Leaf URN_RenderingControl]);
   (py "controlURL", [Leaf (py "/rc")])].

End Samples2.

(** ** Control channel: the other action methods *)

(** The packet of [resume(instance_id)]. *)
Definition resume_packet (w : World) (self : DLNADevice) (instance_id : pyval)
  : str :=
  _create_packet w self (py "Play")
    [(py "InstanceID", instance_id); (py "Speed", VInt 1)].

(** The packet of [pause(instance_id)]. *)
Definition pause_packet (w : World) (self : DLNADevice) (instance_id : pyval)
  : str :=
  _create_packet w self (py "Pause")
    [(py "InstanceID", instance_id); (py "Speed", VInt 1)].

(** The packet of [stop(instance_id)]. *)
Definition stop_packet (w : World) (self : DLNADevice) (instance_id : pyval)
  : str :=
  _create_packet w self (py "Stop")
    [(py "InstanceID", instance_id); (py "Speed", VInt 1)].

(** The packet of [get_volume(instance_id)]. *)
Definition get_volume_packet (w : World) (self : DLNADevice)
  (instance_id : pyval) : str :=
  _create_packet w self (py "GetVolume")
    [(py "InstanceID", instance_id); (py "Channel", VStr (py "Master"))].

(** The packet of [mute(instance_id)]. *)
Definition mute_packet (w : World) (self : DLNADevice) (instance_id : pyval)
  : str :=
  _create_packet w self (py "SetMute")
    [(py "InstanceID", instance_id); (py "DesiredMute", VStr (py "1"));
     (py "Channel", VStr (py "Master"))].

(** The packet of [unmute(instance_id)]. *)
Definition unmute_packet (w : World) (self : DLNADevice) (instance_id : pyval)
  : str :=
  _create_packet w self (py "SetMute")
    [(py "InstanceID", instance_id); (py "DesiredMute", VStr (py "0"));
     (py "Channel", VStr (py "Master"))].

(** The packets of [info], [media_info] and [position_info]. *)
Definition info_packet (w : World) (self : DLNADevice) (instance_id : pyval)
  : str :=
  _create_packet w self (py "GetTransportInfo")
    [(py "InstanceID", instance_id)].

Definition media_info_packet (w : World) (self : DLNADevice)
  (instance_id : pyval) : str :=
  _create_packet w self (py "GetMediaInfo") [(py "InstanceID", instance_id)].

Definition position_info_packet (w : World) (self : DLNADevice)
  (instance_id : pyval) : str :=
  _create_packet w self (py "GetPositionInfo")
    [(py "InstanceID", instance_id)].

(** One call of [_send_tcp] as the methods make it: the target
    [(self.ip, self.port)], the packet, and what the call logged.
    [_send_tcp] does not raise, and [play_media] and [resume] drop what it
    returns. *)
Record sent : Type := {
  sent_to : str * option Z;
  sent_packet : str;
  sent_log : list log_record
}.

Definition send (w : World) (self : DLNADevice) (packet : str) : sent :=
  {| sent_to := (ip self, port self);
     sent_packet := packet;
     sent_log := snd (_send_tcp w (ip self, port self) packet) |}.

(** [resume(self, instance_id=0)]; [None] is a call that leaves the
    argument out.  The result lists the calls of [_send_tcp], in order. *)
Definition resume (w : World) (self : DLNADevice)
  (instance_id : option pyval) : list sent :=
  let instance_id :=
    match instance_id with Some v => v | None => VInt 0 end in
  let packet :=
    _create_packet w self (py "Play")
      [(py "InstanceID", instance_id); (py "Speed", VInt 1)] in
  [send w self packet].

(** [play_media(self, url, instance_id=0, autoplay=True)]:
[[
    packet = self._create_packet('SetAVTransportURI', {...})
    _send_tcp((self.ip, self.port), packet)
    if autoplay: self.resume()
]] *)
Definition play_media (w : World) (self : DLNADevice) (url : str)
  (instance_id : option pyval) (autoplay : option bool) : list sent :=
  let instance_id :=
    match instance_id with Some v => v | None => VInt 0 end in
  let autoplay := match autoplay with Some b => b | None => true end in
  let packet :=
    _create_packet w self (py "SetAVTransportURI")
      [(py "InstanceID", instance_id); (py "CurrentURI", VStr url);
       (py "CurrentURIMetaData", VStr [])] in
  send w self packet :: (if autoplay then resume w self None else []).

(** [packet] is a POST to [url] whose SOAPACTION header names [urn] and
    [action], and whose body, after the empty line, is the envelope of
    [action] with the fields [data] in order. *)
Definition soap_request (w : World) (packet : str) (url : option node)
  (urn action : str) (data : list (str * pyval)) : Prop :=
  exists headers,
    packet
    = py "POST " ++ format_node w url ++ py " HTTP/1.1" ++ crlf
      ++ headers ++ crlf
      ++ py "SOAPACTION: " ++ [ch_quote] ++ urn ++ py "#" ++ action
      ++ [ch_quote] ++ crlf
      ++ py "Connection: close" ++ crlf ++ crlf
      ++ envelope_head action urn ++ format_fields data
      ++ envelope_tail action.

(** * Properties *)

(** ** Discovery *)

Lemma discovery_loop_not_scanning :
  forall w v cb deadline ticks devices trace,
    discovery_loop w v cb false deadline ticks devices trace
    = Some (Ok devices, trace).
Proof. intros. destruct ticks; reflexivity. Qed.

(** C1 (the code departs from the claim): [get_dlnas] initialises
    [keep_scanning] to [False], so the loop test fails before the first
    turn.  Whatever the deadline and whatever arrives on the socket, a
    blocking call sends the M-SEARCH datagram and returns the empty set at
    once; it never calls [select]. *)
Theorem get_dlnas_blocking_returns_at_once :
  forall w clock0 ticks scan_for st mx v callback,
    get_dlnas w clock0 ticks scan_for st mx v true callback
    = match str_encode (msearch_payload w (st v) mx) with
      | Raise e => Some (Devices (Raise e), [])
      | Ok encoded =>
          match udp_sendto w encoded SSDP_GROUP with
          | Raise e => Some (Devices (Raise e), [])
          | Ok _ => Some (Devices (Ok []), [EvSendto encoded])
          end
      end.
Proof.
  intros. unfold get_dlnas, _discovery.
  destruct (str_encode _) as [encoded|e]; [|reflexivity].
  destruct (udp_sendto _ _ _); [|reflexivity].
  rewrite discovery_loop_not_scanning. reflexivity.
Qed.

Example get_dlnas_misses_a_ready_device :
  exists encoded,
    get_dlnas (Samples.world (Ok Samples.desc_full) (Ok tt) (Ok []))
      0 [Samples.tick_readable; Samples.tick_readable] 2
      URN_AVTransport_Fmt 3 1 true None
    = Some (Devices (Ok []), [EvSendto encoded]).
Proof. eexists. vm_compute. reflexivity. Qed.

Lemma set_contains_raises :
  forall devices device, set_contains devices device = Raise TypeError.
Proof. reflexivity. Qed.

Lemma set_add_raises :
  forall devices device, set_add devices device = Raise TypeError.
Proof. reflexivity. Qed.

Lemma discovery_loop_readable_raises :
  forall w v cb deadline tk ticks devices trace data addr,
    stop_requested tk = false ->
    (now tk <? deadline)%Z = true ->
    ready tk = Readable data addr ->
    discovery_loop w v cb true deadline (tk :: ticks) devices trace
    = Some (Raise TypeError, trace ++ [EvSelect] ++ [EvRecvfrom]).
Proof.
  intros * Hstop Hnow Hready. simpl.
  rewrite Hstop, Hnow, Hready. simpl. now rewrite <- app_assoc.
Qed.

(** C2 (the code departs from the claim): two descriptors with the same
    (name, ip) and different control URLs are equal for [__eq__], but
    [DLNADevice] has no [__hash__], so the membership test and the insertion
    raise [TypeError] instead of dropping the duplicate, and a loop turn
    that receives a datagram ends the discovery with that exception. *)
Theorem dedup_raises_type_error :
  let d1 := Samples.tv (py "/ctrl") (py "/rc") in
  let d2 := Samples.tv (py "/other") (py "/rc") in
  DLNADevice__eq__ d1 d2 = true
  /\ set_contains [] d1 = Raise TypeError
  /\ set_contains [d1] d2 = Raise TypeError
  /\ set_add [d1] d2 = Raise TypeError
  /\ discovery_loop (Samples.world (Ok Samples.desc_full) (Ok tt) (Ok []))
       1 None true 2 [Samples.tick_readable] [] []
     = Some (Raise TypeError, [EvSelect; EvRecvfrom]).
Proof. vm_compute. repeat split; reflexivity. Qed.

(** ** Parser: the self-closing rewriting *)

(** C3 (the code departs from the claim and from its own comment
    "replace self-closing <tag/> by <tag>None</tag>"): the rewriting only
    fires on the spelling with a space, so ["<a/>"] parses to the tag ["a/"]
    with an empty child list; and when it fires, the content scan goes on at
    the index computed for the old string, so ["<a />"] yields the leaf
    ["ne"], not ["None"]. *)
Theorem self_closing_is_not_None :
  _xml2dict (py "<a/>") false = [(py "a/", [])]
  /\ _get_tag_value (py "<a/>") 0 = (py "a/", [], [])
  /\ _xml2dict (py "<a />") false = [(py "a", [Leaf (py "ne")])]
  /\ _get_tag_value (py "<a />") 0 = (py "a", py "ne", []).
Proof. vm_compute. repeat split; reflexivity. Qed.

(** ** Path query *)

Lemma xpath_absent_tag :
  forall d p segments,
    dict_get d (nth 0 (split ch_at p) []) = None ->
    xpath_segments (Tree d) (p :: segments) = Ok None.
Proof.
  intros d p segments H. simpl. unfold dict_mem. rewrite H. reflexivity.
Qed.

(** The predicate loop picks the first child whose [a] key holds exactly
    [[aval]], provided the children before it have the key. *)
Lemma select_child_first_match :
  forall before s after a aval v,
    Forall (fun c => exists u,
              node_getitem c a = Ok u /\ eq_single u aval = false) before ->
    node_getitem s a = Ok v ->
    eq_single v aval = true ->
    select_child (before ++ s :: after) a aval = Ok (Some s).
Proof.
  induction before as [|c before IH]; intros s after a aval v Hb Hs Hv.
  - simpl. rewrite Hs. simpl. now rewrite Hv.
  - inversion Hb as [|? ? [u [Hu Hne]] Hrest]; subst.
    simpl. rewrite Hu. simpl. rewrite Hne. eauto.
Qed.

(** With no matching child the loop ends without selecting anything. *)
Lemma select_child_no_match :
  forall children a aval,
    Forall (fun c => exists u,
              node_getitem c a = Ok u /\ eq_single u aval = false) children ->
    select_child children a aval = Ok None.
Proof.
  induction children as [|c children IH]; intros a aval H; [reflexivity|].
  inversion H as [|? ? [u [Hu Hne]] Hrest]; subst.
  simpl. rewrite Hu. simpl. rewrite Hne. auto.
Qed.

(** C4 (the code departs from the claim and from its docstring "value at
    path or None if path not found"): when the predicate of a segment
    matches no child the loop ends without a [break] and the walk stays at
    the current node, so the query below returns the whole tree, not none;
    a tag whose child list is empty raises [IndexError], and a child
    without the predicate's key raises [KeyError]. *)
Theorem xpath_failed_step_is_not_none :
  _xpath Samples.one_service (py "service@serviceType=Y")
    = Ok (Some Samples.one_service)
  /\ _xpath (Tree [(py "a", [])]) (py "a") = Raise IndexError
  /\ _xpath Samples.one_service (py "service@missing=X/controlURL")
     = Raise KeyError.
Proof. vm_compute. repeat split; reflexivity. Qed.

Example xpath_predicate_match :
  _xpath Samples.one_service (py "service@serviceType=X/controlURL")
  = Ok (Some (Leaf (py "/c"))).
Proof. vm_compute. reflexivity. Qed.

(** ** Control channel: packets *)

Lemma urn_rendering_is_not_avtransport :
  forall v v', URN_RenderingControl_Fmt v <> URN_AVTransport_Fmt v'.
Proof.
  intros v v' H.
  apply (f_equal (fun s : str => nth 29 s 0%N)) in H.
  unfold URN_RenderingControl_Fmt, URN_AVTransport_Fmt in H.
  simpl in H. discriminate H.
Qed.

Lemma packet_target_catalog :
  forall self,
    Forall (fun action =>
              packet_target self action
              = (rendering_control_url self,
                 URN_RenderingControl_Fmt (ssdp_version self)))
      [py "SetVolume"; py "GetVolume"; py "SetMute"]
    /\ Forall (fun action =>
                 packet_target self action
                 = (control_url self, URN_AVTransport_Fmt (ssdp_version self)))
         [py "SetAVTransportURI"; py "Play"; py "Pause"; py "Stop";
          py "Seek"; py "GetTransportInfo"; py "GetMediaInfo";
          py "GetPositionInfo"].
Proof. intros self. split; repeat constructor. Qed.

Lemma payload_split :
  forall action data urn,
    _payload_from_template action data urn
    = envelope_head action urn ++ format_fields data ++ envelope_tail action.
Proof.
  intros. unfold _payload_from_template, envelope_head, envelope_tail.
  cbv zeta. repeat rewrite <- app_assoc. reflexivity.
Qed.


Lemma content_length_is_len :
  forall w self action data,
    let lines := packet_lines w self action data in
    nth 5 lines []
    = py "Content-Length: " ++ str_of_Z (Z.of_nat (length (nth 9 lines []))).
Proof.
  intros. unfold lines, packet_lines.
  destruct (packet_target self action). reflexivity.
Qed.

Lemma utf8_char_length :
  forall c b, utf8_char c = Ok b ->
    1 <= length b /\ (length b = 1 <-> (c <? 128)%N = true).
Proof.
  intros c b H. unfold utf8_char in H.
  destruct (c <? 128)%N.
  - inversion H. simpl. split; [lia|tauto].
  - destruct (c <? 2048)%N; [inversion H; simpl; split; [lia|split; [lia|discriminate]]|].
    destruct ((55296 <=? c) && (c <=? 57343))%N; [discriminate|].
    destruct (c <? 65536)%N; inversion H; simpl;
      (split; [lia|split; [lia|discriminate]]).
Qed.

(** The UTF-8 encoding has one octet per code point exactly when the string
    is ASCII, and more otherwise. *)
Lemma str_encode_length :
  forall s b, str_encode s = Ok b ->
    length s <= length b
    /\ (length b = length s <-> forallb (fun c => (c <? 128)%N) s = true).
Proof.
  induction s as [|c s IH]; intros b H; simpl in H.
  - inversion H. simpl. split; [lia|tauto].
  - destruct (utf8_char c) as [bc|] eqn:Hc; [|discriminate]. simpl in H.
    destruct (str_encode s) as [bs|] eqn:Hs; [|discriminate]. simpl in H.
    inversion H; subst b. clear H.
    destruct (utf8_char_length _ Hc) as [H1 H2].
    destruct (IH bs eq_refl) as [H3 H4].
    rewrite length_app. simpl. split; [lia|].
    rewrite andb_true_iff, <- H2, <- H4. lia.
Qed.

(** C9 (the code departs from the claim): [Content-Length] is
    [len(payload)], the number of code points of the envelope, while the
    envelope is sent UTF-8 encoded.  For [play_media] with a URL that holds
    U+00E9 the header says 504 and the body has 505 octets. *)
Theorem content_length_counts_code_points :
  let w := Samples.world (Ok []) (Ok tt) (Ok []) in
  let self := Samples.tv (py "/ctrl") (py "/rc") in
  let lines :=
    packet_lines w self (py "SetAVTransportURI")
      [(py "InstanceID", VInt 0); (py "CurrentURI", VStr Samples.url_e_acute);
       (py "CurrentURIMetaData", VStr [])] in
  play_media_packet w self Samples.url_e_acute (VInt 0) = join crlf lines
  /\ nth 5 lines [] = py "Content-Length: 504"
  /\ length (nth 9 lines []) = 504
  /\ exists body, str_encode (nth 9 lines []) = Ok body /\ length body = 505.
Proof.
  cbv zeta. split; [reflexivity|]. split; [vm_compute; reflexivity|].
  split; [vm_compute; reflexivity|].
  eexists. split; [vm_compute; reflexivity|]. vm_compute. reflexivity.
Qed.

(** ** Control channel: [_send_tcp] *)

(** C5, amended: [_send_tcp] never raises.  A failure of the connection,
    of the encoding, of the send, of the receive or of the decoding makes it
    return the empty str with nothing logged; when the response parses and
    the fault path resolves, the description is logged at the level of an
    error (one record, through [logging.error]) and the parsed response is
    returned. *)
Theorem send_tcp_contract :
  forall w to payload,
    (forall e, tcp_connect w to = Raise e ->
       _send_tcp w to payload = (DataStr [], []))
    /\ (forall e, str_encode payload = Raise e ->
          _send_tcp w to payload = (DataStr [], []))
    /\ (forall encoded e,
          str_encode payload = Ok encoded ->
          tcp_sendall w encoded = Raise e ->
          _send_tcp w to payload = (DataStr [], []))
    /\ (forall e, tcp_recv w 2048 = Raise e ->
          _send_tcp w to payload = (DataStr [], []))
    /\ (forall data e,
          tcp_recv w 2048 = Ok data ->
          bytes_decode w data = Raise e ->
          _send_tcp w to payload = (DataStr [], []))
    /\ (forall encoded data text description,
          tcp_connect w to = Ok tt ->
          str_encode payload = Ok encoded ->
          tcp_sendall w encoded = Ok tt ->
          tcp_recv w 2048 = Ok data ->
          bytes_decode w data = Ok text ->
          _xpath (Tree (_xml2dict (_unescape_xml text) true)) fault_path
            = Ok (Some description) ->
          _send_tcp w to payload
          = (DataTree (_xml2dict (_unescape_xml text) true),
             [(ERROR, MsgNode description)])).
Proof.
  intros w to payload. unfold _send_tcp, send_tcp_try.
  repeat split.
  - intros e H. rewrite H. reflexivity.
  - intros e H. rewrite H. destruct (tcp_connect w to); reflexivity.
  - intros encoded e H1 H2. rewrite H1. simpl. rewrite H2.
    destruct (tcp_connect w to); reflexivity.
  - intros e H. rewrite H.
    destruct (tcp_connect w to); [|reflexivity]. simpl.
    destruct (str_encode payload) as [encoded|]; [|reflexivity]. simpl.
    destruct (tcp_sendall w encoded); reflexivity.
  - intros data e H1 H2. rewrite H1. simpl. rewrite H2.
    destruct (tcp_connect w to); [|reflexivity]. simpl.
    destruct (str_encode payload) as [encoded|]; [|reflexivity]. simpl.
    destruct (tcp_sendall w encoded); reflexivity.
  - intros encoded data text description H1 H2 H3 H4 H5 H6.
    rewrite H1. simpl. rewrite H2. simpl. rewrite H3. simpl.
    rewrite H4. simpl. rewrite H5. simpl. rewrite H6. reflexivity.
Qed.

Lemma send_tcp_contract_witness :
  _send_tcp (Samples.world (Ok []) (Raise OSError) (Ok []))
    (py "192.168.1.50", Some 80%Z) (py "x")
  = (DataStr [], [])
  /\ snd (_send_tcp (Samples.world (Ok []) (Ok tt) (Ok Samples.fault_reply))
            (py "192.168.1.50", Some 80%Z) (py "x"))
     = [(ERROR, MsgNode (Leaf (py "Invalid InstanceID")))].
Proof.
  split.
  - exact (proj1 (send_tcp_contract
                    (Samples.world (Ok []) (Raise OSError) (Ok []))
                    (py "192.168.1.50", Some 80%Z) (py "x"))
             OSError eq_refl).
  - pose proof
      (proj2 (proj2 (proj2 (proj2 (proj2
         (send_tcp_contract
            (Samples.world (Ok []) (Ok tt) (Ok Samples.fault_reply))
            (py "192.168.1.50", Some 80%Z) (py "x")))))))
      as H.
    rewrite (H (py "x") Samples.fault_reply Samples.fault_reply
               (Leaf (py "Invalid InstanceID"))
               eq_refl eq_refl eq_refl eq_refl eq_refl).
    + reflexivity.
    + vm_compute. reflexivity.
Defined.

(** C5 as stated fails: the description of a fault is handed to
    [logging.error], so the one record that [_send_tcp] logs for the fault
    reply has the level of an error, and no record is a warning. *)
Lemma send_tcp_fault_is_logged_as_error :
  let log :=
    snd (_send_tcp (Samples.world (Ok []) (Ok tt) (Ok Samples.fault_reply))
           (py "192.168.1.50", Some 80%Z) (py "x")) in
  log = [(ERROR, MsgNode (Leaf (py "Invalid InstanceID")))]
  /\ ~ In WARNING (map fst log).
Proof.
  vm_compute. split; [reflexivity|].
  intros [H|[]]. discriminate H.
Qed.

(** ** Device descriptor: [__init__] *)

(** The four attributes the claim calls the degraded defaults. *)
Lemma init_defaults_fields :
  forall ip0,
    name (init_defaults ip0) = Leaf (py "Unknown")
    /\ control_url (init_defaults ip0) = None
    /\ rendering_control_url (init_defaults ip0) = None
    /\ has_av_transport (init_defaults ip0) = false.
Proof. intros. repeat split. Qed.

(** C6 as stated fails: the second service of [Samples.desc_partial] has no
    [serviceType], so the RenderingControl lookup raises [KeyError] after
    the name and the AVTransport URL have been assigned; the device is not
    in the default state. *)
Lemma init_partial_keeps_extracted_fields :
  let w := Samples.world (Ok Samples.desc_partial) (Ok tt) (Ok []) in
  let ip0 := py "192.168.1.50" in
  let d := fst (DLNADevice__init__ w Samples.response ip0) in
  snd (init_try w Samples.response (init_defaults ip0)) = Raise KeyError
  /\ ~ (name d = Leaf (py "Unknown") /\ control_url d = None
        /\ rendering_control_url d = None /\ has_av_transport d = false).
Proof.
  cbv zeta. split; [vm_compute; reflexivity|].
  intros [H _]. vm_compute in H. discriminate H.
Qed.

Example init_partial_state :
  let w := Samples.world (Ok Samples.desc_partial) (Ok tt) (Ok []) in
  let d := fst (DLNADevice__init__ w Samples.response (py "192.168.1.50")) in
  name d = Leaf (py "TV")
  /\ control_url d = Some (Leaf (py "/ctrl"))
  /\ rendering_control_url d = None
  /\ has_av_transport d = false.
Proof. vm_compute. repeat split; reflexivity. Qed.

Lemma bind_call_ok :
  forall (A B : Type) (a : A) (k : A -> Init.M B) self,
    Init.bind (Init.call (Ok a)) k self = k a self.
Proof. reflexivity. Qed.

Lemma bind_call_raise :
  forall (A B : Type) e (k : A -> Init.M B) self,
    Init.bind (Init.call (Raise e)) k self = (self, Raise e).
Proof. reflexivity. Qed.

Lemma bind_assign :
  forall (B : Type) f (k : unit -> Init.M B) self,
    Init.bind (Init.assign f) k self = k tt (f self).
Proof. reflexivity. Qed.

(** The [try] block, once the description is there: the defaults still
    hold before the first extraction. *)
Lemma init_try_fetch :
  forall w raw ip0,
    match fetch_description w raw with
    | Raise e =>
        exists d, init_try w raw (init_defaults ip0) = (d, Raise e)
                  /\ ip d = ip0
                  /\ name d = Leaf (py "Unknown") /\ control_url d = None
                  /\ rendering_control_url d = None
                  /\ has_av_transport d = false
    | Ok doc =>
        let xml := Tree (_xml2dict doc false) in
        exists d0,
          ip d0 = ip0
          /\ name d0 = Leaf (py "Unknown") /\ control_url d0 = None
          /\ rendering_control_url d0 = None /\ has_av_transport d0 = false
          /\ init_try w raw (init_defaults ip0)
             = (n <~ Init.call (_get_friendly_name xml) ;;
                Init.assign (set_name n) ;;;
                cu <~ Init.call (_get_control_url xml URN_AVTransport) ;;
                Init.assign (set_control_url cu) ;;;
                rcu <~ Init.call (_get_control_url xml URN_RenderingControl) ;;
                Init.assign (set_rendering_control_url rcu) ;;;
                Init.assign
                  (set_has_av_transport
                     (match cu with Some _ => true | None => false end))) d0
    end.
Proof.
  intros w raw ip0. unfold fetch_description, init_try.
  destruct (bytes_decode w raw) as [raw'|e]; cbn [bind];
    [rewrite bind_call_ok
    |rewrite bind_call_raise; eexists; repeat split; reflexivity].
  destruct (_get_location_url w raw') as [loc|e]; cbn [bind];
    [rewrite bind_call_ok, bind_assign
    |rewrite bind_call_raise; eexists; repeat split; reflexivity].
  destruct (_get_port w loc) as [p|e]; cbn [bind];
    [rewrite bind_call_ok, bind_assign
    |rewrite bind_call_raise; eexists; repeat split; reflexivity].
  destruct (urlopen_read w loc) as [page|e]; cbn [bind];
    [rewrite bind_call_ok
    |rewrite bind_call_raise; eexists; repeat split; reflexivity].
  destruct (bytes_decode w page) as [doc|e];
    [rewrite bind_call_ok
    |rewrite bind_call_raise; eexists; repeat split; reflexivity].
  cbv zeta. eexists. repeat split; reflexivity.
Qed.

Ltac init_run :=
  repeat first [ rewrite bind_call_ok | rewrite bind_call_raise
               | rewrite bind_assign ].

Ltac init_done :=
  unfold Init.assign;
  match goal with d0 : DLNADevice |- _ => destruct d0 end;
  cbn [fst snd ip name control_url rendering_control_url has_av_transport
       set_name set_control_url set_rendering_control_url
       set_has_av_transport] in *;
  repeat split; intros; congruence.

(** C6, amended: [DLNADevice(raw, ip)] always returns a device.  If a step
    of the [try] block raises, the exception is logged as a warning,
    [has_av_transport] is false and [rendering_control_url] is none.  The
    four defaults (name "Unknown", both control URLs none,
    [has_av_transport] false) hold when the failure comes before the
    description is there or in the [friendlyName] extraction; a failure in a
    control-URL extraction leaves the attributes assigned before it as
    extracted. *)
Theorem init_degraded :
  forall w raw ip0,
    let d := fst (DLNADevice__init__ w raw ip0) in
    let defaults :=
      name d = Leaf (py "Unknown") /\ control_url d = None
      /\ rendering_control_url d = None /\ has_av_transport d = false in
    ip d = ip0
    /\ (forall e,
          snd (init_try w raw (init_defaults ip0)) = Raise e ->
          snd (DLNADevice__init__ w raw ip0) = [(WARNING, MsgExc e)]
          /\ rendering_control_url d = None /\ has_av_transport d = false)
    /\ (forall e, fetch_description w raw = Raise e -> defaults)
    /\ (forall doc,
          fetch_description w raw = Ok doc ->
          let xml := Tree (_xml2dict doc false) in
          (forall e, _get_friendly_name xml = Raise e -> defaults)
          /\ (forall n e,
                _get_friendly_name xml = Ok n ->
                _get_control_url xml URN_AVTransport = Raise e ->
                name d = n /\ control_url d = None
                /\ rendering_control_url d = None
                /\ has_av_transport d = false)
          /\ (forall n cu e,
                _get_friendly_name xml = Ok n ->
                _get_control_url xml URN_AVTransport = Ok cu ->
                _get_control_url xml URN_RenderingControl = Raise e ->
                name d = n /\ control_url d = cu
                /\ rendering_control_url d = None
                /\ has_av_transport d = false)).
Proof.
  intros w raw ip0. cbv zeta. unfold DLNADevice__init__.
  pose proof (init_try_fetch w raw ip0) as H.
  destruct (fetch_description w raw) as [doc|e0].
  - cbv zeta in H. destruct H as [d0 (Hip & Hn & Hc & Hr & Hh & Htry)].
    rewrite Htry. clear Htry.
    split; [|split; [|split]].
    + destruct (_get_friendly_name _); init_run; [|init_done].
      destruct (_get_control_url _ URN_AVTransport); init_run; [|init_done].
      destruct (_get_control_url _ URN_RenderingControl); init_run;
        init_done.
    + intros e.
      destruct (_get_friendly_name _); init_run; [|init_done].
      destruct (_get_control_url _ URN_AVTransport); init_run; [|init_done].
      destruct (_get_control_url _ URN_RenderingControl); init_run;
        init_done.
    + intros e He. discriminate He.
    + intros doc0 Hdoc. inversion Hdoc; subst doc0. clear Hdoc.
      split; [|split].
      * intros e He. rewrite He. init_run. init_done.
      * intros n e Hname Hcu. rewrite Hname, Hcu. init_run. init_done.
      * intros n cu e Hname Hcu Hrcu. rewrite Hname, Hcu, Hrcu.
        init_run. init_done.
  - destruct H as [d (Htry & Hip & Hn & Hc & Hr & Hh)]. rewrite Htry.
    cbn [fst snd].
    repeat split; intros; congruence.
Qed.

Lemma init_degraded_witness :
  let w := Samples.world (Ok Samples.desc_partial) (Ok tt) (Ok []) in
  let d := fst (DLNADevice__init__ w Samples.response (py "192.168.1.50")) in
  name d = Leaf (py "TV") /\ control_url d = Some (Leaf (py "/ctrl"))
  /\ rendering_control_url d = None /\ has_av_transport d = false.
Proof.
  cbv zeta.
  pose proof
    (proj2 (proj2 (proj2
       (init_degraded
          (Samples.world (Ok Samples.desc_partial) (Ok tt) (Ok []))
          Samples.response (py "192.168.1.50"))))) as H.
  cbv zeta in H.
  apply (proj2 (proj2 (H Samples.desc_partial eq_refl))
           (Leaf (py "TV")) (Some (Leaf (py "/ctrl"))) KeyError);
    vm_compute; reflexivity.
Defined.


(** ** Strings *)

Lemma str_eqb_eq : forall a b, str_eqb a b = true <-> a = b.
Proof.
  induction a as [|c a IH]; destruct b as [|d b]; simpl;
    try (split; [discriminate|discriminate]); [tauto|].
  rewrite andb_true_iff, N.eqb_eq, IH. split.
  - intros [-> ->]. reflexivity.
  - intros H. inversion H. auto.
Qed.

Lemma str_eqb_refl : forall a, str_eqb a a = true.
Proof. intros. now apply str_eqb_eq. Qed.

Lemma startswith_app :
  forall p x, startswith x p = true -> x = p ++ skipn (length p) x.
Proof.
  induction p as [|c p IH]; intros x H; [reflexivity|].
  destruct x as [|d x]; [discriminate|]. simpl in H.
  apply andb_true_iff in H. destruct H as [Hc Hp].
  apply N.eqb_eq in Hc. subst d. simpl. f_equal. auto.
Qed.

Lemma spaces_app : forall a b, spaces (a ++ b) = spaces a + spaces b.
Proof. induction a; intros; simpl; [reflexivity|]. rewrite IHa. lia. Qed.

Lemma spaces_rev : forall a, spaces (rev a) = spaces a.
Proof.
  induction a; simpl; [reflexivity|].
  rewrite spaces_app, IHa. simpl. lia.
Qed.

Lemma spaces_skipn : forall n a, spaces (skipn n a) <= spaces a.
Proof.
  induction n; intros [|c a]; simpl; try lia.
  specialize (IHn a). lia.
Qed.

Lemma spaces_firstn : forall n a, spaces (firstn n a) <= spaces a.
Proof.
  induction n; intros [|c a]; simpl; try lia.
  specialize (IHn a). lia.
Qed.

Lemma lstrip_skipn : forall x, exists n, lstrip x = skipn n x.
Proof.
  induction x as [|c x [n IH]]; [exists 0; reflexivity|]. simpl.
  destruct (isspace c); [exists (S n); exact IH|exists 0; reflexivity].
Qed.

Lemma lstrip_bounds :
  forall x, length (lstrip x) <= length x /\ spaces (lstrip x) <= spaces x.
Proof.
  intros x. destruct (lstrip_skipn x) as [n ->].
  rewrite length_skipn. split; [lia|apply spaces_skipn].
Qed.

Lemma strip_bounds :
  forall x, length (strip x) <= length x /\ spaces (strip x) <= spaces x.
Proof.
  intros x. unfold strip, rstrip.
  rewrite length_rev, spaces_rev.
  destruct (lstrip_bounds (rev (lstrip x))) as [H1 H2].
  rewrite length_rev, spaces_rev in *.
  destruct (lstrip_bounds x). lia.
Qed.

Lemma lstrip_fixed :
  forall x, match x with [] => True | c :: _ => isspace c = false end ->
            lstrip x = x.
Proof. intros [|c x] H; simpl; [reflexivity|now rewrite H]. Qed.

Lemma lstrip_head :
  forall x, match lstrip x with [] => True | c :: _ => isspace c = false end.
Proof.
  induction x as [|c x IH]; simpl; [exact I|].
  destruct (isspace c) eqn:E; [exact IH|exact E].
Qed.

Lemma lstrip_idem : forall x, lstrip (lstrip x) = lstrip x.
Proof. intros. apply lstrip_fixed, lstrip_head. Qed.

Lemma rstrip_prefix : forall y, exists m, rstrip y = firstn m y.
Proof.
  intros y. unfold rstrip. destruct (lstrip_skipn (rev y)) as [n ->].
  exists (length y - n). rewrite skipn_rev, rev_involutive. reflexivity.
Qed.

Lemma strip_idem : forall x, strip (strip x) = strip x.
Proof.
  intros x. unfold strip.
  assert (H : lstrip (rstrip (lstrip x)) = rstrip (lstrip x)).
  { apply lstrip_fixed.
    destruct (rstrip_prefix (lstrip x)) as [m ->].
    pose proof (lstrip_head x) as Hh.
    destruct (lstrip x) as [|c y]; destruct m; simpl; auto. }
  rewrite H. unfold rstrip at 1. unfold rstrip at 1.
  rewrite rev_involutive, lstrip_idem. reflexivity.
Qed.

Lemma get_tag_value_strip :
  forall x i, _get_tag_value (strip x) i = _get_tag_value x i.
Proof. intros. unfold _get_tag_value. rewrite strip_idem. reflexivity. Qed.

(** ** The scanning loops *)

Lemma read_tag_spec :
  forall rest i in_attr tag i' tag',
    read_tag rest i in_attr tag = (i', tag') ->
    i <= i' /\ spaces tag' = spaces tag.
Proof.
  induction rest as [|c rest IH]; intros i in_attr tag i' tag' H; simpl in H.
  - inversion H. subst. split; [lia|reflexivity].
  - destruct (N.eqb c ch_gt); [inversion H; subst; split; [lia|reflexivity]|].
    apply IH in H. destruct H as [H1 H2]. split; [lia|]. rewrite H2.
    destruct (N.eqb c ch_space) eqn:E; [reflexivity|].
    destruct in_attr; [reflexivity|].
    rewrite spaces_app. simpl. rewrite E. lia.
Qed.

Lemma scan_value_prefix :
  forall rest i tag value,
    exists k, snd (scan_value rest i tag value) = firstn k (value ++ rest).
Proof.
  induction rest as [|c rest IH]; intros i tag value; simpl.
  - exists (length value). rewrite app_nil_r. symmetry. apply firstn_all.
  - destruct (N.eqb c ch_gt && endswith (value ++ [c]) _).
    + simpl. exists (length (value ++ [c]) - (length tag + 2)).
      replace (length tag + 2) with (S (length tag + 1)) by lia.
      cbn [slice_to_neg].
      replace (value ++ c :: rest) with ((value ++ [c]) ++ rest)
        by (rewrite <- app_assoc; reflexivity).
      rewrite (firstn_app _ (value ++ [c]) rest).
      replace (length (value ++ [c]) - S (length tag + 1)
               - length (value ++ [c])) with 0 by lia.
      cbn [firstn]. now rewrite app_nil_r.
    + destruct (IH (S i) tag (value ++ [c])) as [k Hk]. exists k.
      rewrite Hk. rewrite <- app_assoc. reflexivity.
Qed.

(** The content handed back by [_get_tag_value] is a prefix of what was
    left to scan. *)
Lemma scanned_value_bounds :
  forall rest i tag,
    let v := slice_to_neg (snd (scan_value rest i tag [])) 1 in
    length v <= length rest /\ spaces v <= spaces rest.
Proof.
  intros rest i tag. cbv zeta.
  destruct (scan_value_prefix rest i tag []) as [k ->]. simpl app.
  cbn [slice_to_neg]. rewrite firstn_firstn. split.
  - rewrite length_firstn. lia.
  - apply spaces_firstn.
Qed.

(** ** [str.replace] and the measure *)

Lemma replace_from_measure :
  forall old new,
    spaces old = 1 -> spaces new = 0 ->
    forall fuel x,
    exists k,
      spaces x = spaces (replace_from fuel x old new) + k
      /\ length (replace_from fuel x old new) + k * length old
         = length x + k * length new
      /\ k * length old <= length x
      /\ (startswith x old = true -> fuel <> 0 -> 1 <= k).
Proof.
  intros old new Hold Hnew.
  induction fuel as [|fuel IH]; intros x.
  - exists 0. simpl. repeat split; intros; lia.
  - destruct x as [|c x].
    + exists 0. simpl. repeat split; intros; try lia.
      destruct old; simpl in *; congruence.
    + cbn [replace_from]. destruct (startswith (c :: x) old) eqn:Hs.
      * pose proof (startswith_app _ _ Hs) as Hx.
        destruct (IH (skipn (length old) (c :: x))) as [k (H1 & H2 & H3 & _)].
        exists (S k).
        assert (Hlen : length (c :: x)
                       = length old + length (skipn (length old) (c :: x))).
        { rewrite Hx at 1. now rewrite length_app. }
        assert (Hsp : spaces (c :: x)
                      = spaces old + spaces (skipn (length old) (c :: x))).
        { rewrite Hx at 1. now rewrite spaces_app. }
        rewrite spaces_app, length_app. repeat split; intros; lia.
      * destruct (IH x) as [k (H1 & H2 & H3 & _)]. exists k.
        cbn [spaces length]. repeat split; intros; lia || discriminate.
Qed.

Lemma fuel_bound_pos : forall x, 1 <= fuel_bound x.
Proof.
  intros x. unfold fuel_bound.
  pose proof (Nat.pow_nonzero 2 (spaces x)). nia.
Qed.

Lemma fuel_bound_mono :
  forall a b,
    length a < length b -> spaces a <= spaces b ->
    fuel_bound a < fuel_bound b.
Proof.
  intros a b Hl Hs. unfold fuel_bound.
  pose proof (Nat.pow_le_mono_r 2 _ _ ltac:(lia) Hs).
  pose proof (Nat.pow_nonzero 2 (spaces a)). nia.
Qed.

Lemma fuel_bound_mono_le :
  forall a b,
    length a <= length b -> spaces a <= spaces b ->
    fuel_bound a <= fuel_bound b.
Proof.
  intros a b Hl Hs. unfold fuel_bound.
  pose proof (Nat.pow_le_mono_r 2 _ _ ltac:(lia) Hs). nia.
Qed.

(** After the rewriting of [k] self-closing elements the string can be
    longer, but it has [k] spaces less, and the measure goes down. *)
Lemma fuel_bound_after_replace :
  forall (sub x0 x' : str) k t,
    spaces x0 = spaces x' + k ->
    length x' + k * (t + 4) = length x0 + k * (2 * t + 9) ->
    k * (t + 4) <= length x0 ->
    1 <= k ->
    length sub < length x' ->
    spaces sub <= spaces x' ->
    fuel_bound sub < fuel_bound x0.
Proof.
  intros sub x0 x' k t Hs Hl Hk H1 Hsub Hsp. unfold fuel_bound.
  rewrite Hs, Nat.pow_add_r.
  pose proof (Nat.pow_le_mono_r 2 _ _ ltac:(lia) Hsp) as Hp.
  pose proof (Nat.pow_nonzero 2 (spaces sub)) as Hnz.
  pose proof (Nat.pow_gt_lin_r 2 k ltac:(lia)) as Hk2.
  assert (Hlen : length sub + 1 <= length x0 + length x0 + k) by nia.
  assert (H2 : length x0 + length x0 + k + 1
               <= (length x0 + 1) * 2 ^ k) by nia.
  assert (H3 : (length sub + 1) * 2 ^ spaces sub
               < (length x0 + 1) * 2 ^ k * 2 ^ spaces sub) by nia.
  assert (H4 : (length x0 + 1) * 2 ^ k * 2 ^ spaces sub
               <= (length x0 + 1) * 2 ^ k * 2 ^ spaces x') by nia.
  lia.
Qed.

(** ** Termination of the parser *)

Lemma skip_to_lt_ge : forall rest i, i <= skip_to_lt rest i.
Proof.
  induction rest as [|c rest IH]; intros i; simpl; [lia|].
  destruct (N.eqb c ch_lt); [lia|]. specialize (IH (S i)). lia.
Qed.

Lemma startswith_length :
  forall x p, startswith x p = true -> length p <= length x.
Proof.
  intros x p H. apply startswith_app in H. rewrite H, length_app. lia.
Qed.

(** One extraction step makes the measure [fuel_bound] smaller, both for
    the remainder and for a content that is parsed recursively. *)
Lemma get_tag_value_measure :
  forall s tag value rest,
    s <> [] ->
    _get_tag_value s 0 = (tag, value, rest) ->
    fuel_bound rest < fuel_bound s
    /\ (length rest < length s \/ spaces rest < spaces s)
    /\ (fst (fst (_get_tag_value (strip value) 0)) <> [] ->
        fuel_bound (strip value) < fuel_bound s).
Proof.
  intros s tag value rest Hs H.
  pose proof H as H0.
  assert (Hlen : 1 <= length s) by (destruct s; [congruence|simpl; lia]).
  unfold _get_tag_value in H.
  destruct (strip_bounds s) as [HL HS].
  pose proof (strip_idem s) as Hidem.
  remember (strip s) as x0 eqn:Hx0.
  cbv zeta in H. change (0 + 2) with 2 in H.
  change (skipn 0 x0) with x0 in H.
  remember (if startswith x0 (py "<?") then skip_to_lt (skipn 2 x0) 2 else 0)
    as i0 eqn:Hi0.
  assert (Hcase : (i0 = 0 /\ startswith x0 (py "<?") = false)
                  \/ (2 <= i0 /\ 2 <= length x0)).
  { destruct (startswith x0 (py "<?")) eqn:E; [right|left; auto].
    split; [subst i0; apply skip_to_lt_ge|].
    apply startswith_length in E. exact E. }
  destruct (startswith (skipn i0 x0) (py "</")) eqn:Hclose.
  - (* a closing tag *)
    destruct (read_tag (skipn (i0 + 2) x0) (i0 + 2) false []) as [i tg].
    injection H as E1 E2 E3. subst tag value rest.
    apply startswith_length in Hclose. rewrite length_skipn in Hclose.
    simpl in Hclose.
    assert (Hr : length (skipn (i + 1) x0) < length s)
      by (rewrite length_skipn; lia).
    pose proof (spaces_skipn (i + 1) x0) as Hsp.
    split; [apply fuel_bound_mono; lia|]. split; [left; exact Hr|].
    intros Hne. exfalso. apply Hne. vm_compute. reflexivity.
  - destruct (negb (startswith (skipn i0 x0) (py "<"))) eqn:Hleaf.
    + (* a leaf value *)
      injection H as E1 E2 E3. subst tag value rest.
      split; [apply fuel_bound_mono; simpl; lia|].
      split; [left; simpl; lia|].
      intros Hne.
      destruct Hcase as [[Hz _]|[Hi Hx]].
      * exfalso. apply Hne. rewrite Hz. cbn [skipn].
        rewrite Hx0, !get_tag_value_strip, H0. reflexivity.
      * destruct (strip_bounds (skipn i0 x0)) as [H1 H2].
        pose proof (spaces_skipn i0 x0).
        rewrite length_skipn in H1. apply fuel_bound_mono; lia.
    + (* an opening tag *)
      apply negb_false_iff in Hleaf.
      apply startswith_length in Hleaf. rewrite length_skipn in Hleaf.
      simpl in Hleaf.
      destruct (read_tag (skipn (i0 + 1) x0) (i0 + 1) false []) as [i2 tg]
        eqn:Hrt.
      apply read_tag_spec in Hrt. destruct Hrt as [Hi2 Htg]. simpl in Htg.
      destruct (startswith x0 (py "<" ++ tg ++ py " />")) eqn:Hrep.
      * (* the self-closing form is rewritten *)
        destruct (replace_from_measure
                    (py "<" ++ tg ++ py " />")
                    (py "<" ++ tg ++ py ">None</" ++ tg ++ py ">")
                    ltac:(rewrite !spaces_app, Htg; reflexivity)
                    ltac:(rewrite !spaces_app, Htg; reflexivity)
                    (length x0) x0) as [k (K1 & K2 & K3 & K4)].
        specialize (K4 Hrep ltac:(lia)).
        fold (replace x0 (py "<" ++ tg ++ py " />")
                (py "<" ++ tg ++ py ">None</" ++ tg ++ py ">")) in K1, K2.
        remember (replace x0 (py "<" ++ tg ++ py " />")
                    (py "<" ++ tg ++ py ">None</" ++ tg ++ py ">")) as x'.
        assert (LE : length (py "<" ++ tg ++ py " />") = length tg + 4)
          by (rewrite !length_app; simpl; lia).
        assert (LC : length (py "<" ++ tg ++ py ">None</" ++ tg ++ py ">")
                     = 2 * length tg + 9)
          by (rewrite !length_app; simpl; lia).
        rewrite LE, LC in K2. rewrite LE in K3.
        pose proof (scanned_value_bounds (skipn (i2 + 1) x') (i2 + 1) tg)
          as Hv. cbv zeta in Hv.
        destruct (scan_value (skipn (i2 + 1) x') (i2 + 1) tg [])
          as [i4 v].
        injection H as E1 E2 E3. subst tag value rest. cbn [snd] in Hv.
        destruct Hv as [Hv1 Hv2]. rewrite length_skipn in Hv1.
        pose proof (spaces_skipn (i2 + 1) x').
        pose proof (spaces_skipn (i4 + 1) x').
        assert (Hx' : 1 <= length x') by nia.
        assert (Hr : length (skipn (i4 + 1) x') < length x')
          by (rewrite length_skipn; lia).
        destruct (strip_bounds (slice_to_neg v 1)) as [B1 B2].
        cbn [slice_to_neg] in *.
        split; [|split].
        -- apply Nat.lt_le_trans with (fuel_bound x0);
             [|apply fuel_bound_mono_le; lia].
           apply fuel_bound_after_replace with (x' := x') (k := k)
                                               (t := length tg); lia.
        -- right. lia.
        -- intros _. apply Nat.lt_le_trans with (fuel_bound x0);
             [|apply fuel_bound_mono_le; lia].
           apply fuel_bound_after_replace with (x' := x') (k := k)
                                               (t := length tg); lia.
      * (* no rewriting *)
        pose proof (scanned_value_bounds (skipn (i2 + 1) x0) (i2 + 1) tg)
          as Hv. cbv zeta in Hv.
        destruct (scan_value (skipn (i2 + 1) x0) (i2 + 1) tg [])
          as [i4 v].
        injection H as E1 E2 E3. subst tag value rest. cbn [snd] in Hv.
        destruct Hv as [Hv1 Hv2]. rewrite length_skipn in Hv1.
        pose proof (spaces_skipn (i2 + 1) x0).
        pose proof (spaces_skipn (i4 + 1) x0).
        assert (Hr : length (skipn (i4 + 1) x0) < length s)
          by (rewrite length_skipn; lia).
        destruct (strip_bounds (slice_to_neg v 1)) as [B1 B2].
        cbn [slice_to_neg] in *.
        split; [apply fuel_bound_mono; lia|].
        split; [left; exact Hr|].
        intros _. apply fuel_bound_mono; lia.
Qed.

(** With [fuel_bound] as fuel the loop never runs dry. *)
Lemma xml2dict_loop_enough :
  forall fuel d s,
    fuel_bound s <= fuel -> exists r, _xml2dict_loop fuel d s = Some r.
Proof.
  induction fuel as [|fuel IH]; intros d s Hf.
  - pose proof (fuel_bound_pos s). lia.
  - destruct s as [|c s']; [eexists; reflexivity|].
    cbn [_xml2dict_loop].
    destruct (_get_tag_value (c :: s') 0) as [[tag value] rest] eqn:Hg.
    apply get_tag_value_measure in Hg; [|discriminate].
    destruct Hg as (Hrest & _ & Hval).
    destruct (_get_tag_value (strip value) 0) as [[is_xml v1] r1].
    cbn [fst] in Hval.
    destruct is_xml as [|c1 t1].
    + destruct (strip value); apply IH; lia.
    + destruct (IH [] (strip value)) as [sub Hsub];
        [specialize (Hval ltac:(discriminate)); lia|].
      rewrite Hsub. apply IH. lia.
Qed.

(** More fuel does not change the result. *)
Lemma xml2dict_loop_more_fuel :
  forall fuel d s r,
    _xml2dict_loop fuel d s = Some r ->
    forall fuel', fuel <= fuel' -> _xml2dict_loop fuel' d s = Some r.
Proof.
  induction fuel as [|fuel IH]; intros d s r H fuel' Hle; [discriminate|].
  destruct fuel' as [|fuel']; [lia|].
  assert (Hle' : fuel <= fuel') by lia.
  cbn [_xml2dict_loop] in *.
  destruct s as [|c s']; [exact H|].
  destruct (_get_tag_value (c :: s') 0) as [[tag value] rest].
  destruct (_get_tag_value (strip value) 0) as [[is_xml v1] r1].
  destruct is_xml as [|c1 t1].
  - destruct (strip value); eapply IH; eauto.
  - destruct (_xml2dict_loop fuel [] (strip value)) as [sub|] eqn:Hsub;
      [|discriminate].
    rewrite (IH _ _ _ Hsub fuel' Hle'). eapply IH; eauto.
Qed.

Lemma xml2dict_loop_total :
  forall s, _xml2dict_loop (fuel_bound s) [] s = Some (_xml2dict s false).
Proof.
  intros s. unfold _xml2dict.
  destruct (xml2dict_loop_enough [] s (Nat.le_refl (fuel_bound s))) as [r ->].
  reflexivity.
Qed.

(** C10 as stated fails: the first extraction step on three self-closing
    elements rewrites all of them and hands back a remainder of 22
    characters for an input of 15. *)
Lemma remainder_can_grow :
  let input := py "<a /><a /><a />" in
  _get_tag_value input 0 = (py "a", py "ne", py "<a>None</a><a>None</a>")
  /\ ~ (length (py "<a>None</a><a>None</a>") < length input
        \/ py "<a>None</a><a>None</a>" = []).
Proof.
  cbv zeta. split; [vm_compute; reflexivity|].
  vm_compute. intros [H|H]; [lia|discriminate].
Qed.

(** ** The shape of the parsed tree *)

Lemma dict_get_set :
  forall d k v k',
    dict_get (dict_set d k v) k'
    = if str_eqb k' k then Some v else dict_get d k'.
Proof.
  induction d as [|[k0 v0] d IH]; intros k v k'; simpl.
  - reflexivity.
  - destruct (str_eqb k k0) eqn:E; simpl.
    + apply str_eqb_eq in E. subst k0.
      destruct (str_eqb k' k); reflexivity.
    + rewrite IH. destruct (str_eqb k' k0) eqn:E0; [|reflexivity].
      apply str_eqb_eq in E0. subst k0.
      destruct (str_eqb k' k) eqn:E1; [|reflexivity].
      apply str_eqb_eq in E1. subst k'. rewrite str_eqb_refl in E.
      discriminate.
Qed.

Lemma dict_get_setdefault :
  forall d k k',
    dict_get (dict_setdefault d k) k'
    = if str_eqb k' k
      then match dict_get d k with Some l => Some l | None => Some [] end
      else dict_get d k'.
Proof.
  intros d k k'. unfold dict_setdefault, dict_mem.
  destruct (dict_get d k) as [l|] eqn:E.
  - destruct (str_eqb k' k) eqn:E'; [|reflexivity].
    apply str_eqb_eq in E'. subst k'. exact E.
  - apply dict_get_set.
Qed.

Lemma dict_get_append_other :
  forall d k c k',
    str_eqb k' k = false ->
    dict_get (dict_append d k c) k' = dict_get d k'.
Proof.
  induction d as [|[k0 v0] d IH]; intros k c k' E; simpl; [reflexivity|].
  destruct (str_eqb k k0) eqn:E0; simpl.
  - apply str_eqb_eq in E0. subst k0. rewrite E. reflexivity.
  - rewrite IH by exact E. reflexivity.
Qed.

Lemma dict_get_append_present :
  forall d k c k',
    dict_get d k' <> None -> dict_get (dict_append d k c) k' <> None.
Proof.
  induction d as [|[k0 v0] d IH]; intros k c k' H; simpl in *; [exact H|].
  destruct (str_eqb k k0) eqn:E0; simpl;
    destruct (str_eqb k' k0); try discriminate; auto.
Qed.

Lemma get_tag_value_empty : _get_tag_value [] 0 = ([], [], []).
Proof. reflexivity. Qed.

(** Every tag the loop extracts ends up as a key. *)
Lemma xml2dict_loop_keys :
  forall fuel d s r,
    _xml2dict_loop fuel d s = Some r ->
    forall tag,
      dict_get d tag <> None \/ In tag (map fst (extractions fuel s)) ->
      dict_get r tag <> None.
Proof.
  induction fuel as [|fuel IH]; intros d s r H tag Htag; [discriminate|].
  cbn [_xml2dict_loop extractions] in *.
  destruct s as [|c s'].
  - inversion H; subst r. destruct Htag as [Ht|[]]. exact Ht.
  - destruct (_get_tag_value (c :: s') 0) as [[t value] rest].
    cbn [map fst In] in Htag.
    assert (Hd : dict_get (dict_setdefault d t) tag <> None
                 \/ In tag (map fst (extractions fuel rest))).
    { rewrite dict_get_setdefault.
      destruct Htag as [Ht|[Ht|Ht]]; [| |right; exact Ht]; left.
      - destruct (str_eqb tag t); [destruct (dict_get d t)|]; congruence.
      - subst t. rewrite str_eqb_refl.
        destruct (dict_get d tag); discriminate. }
    clear Htag.
    destruct (_get_tag_value (strip value) 0) as [[is_xml v1] r1].
    destruct is_xml as [|c1 t1].
    + destruct (strip value).
      * eapply IH; eauto.
      * eapply IH; [exact H|].
        destruct Hd as [Hd|Hd]; [left|right; exact Hd].
        now apply dict_get_append_present.
    + destruct (_xml2dict_loop fuel [] (strip value)) as [sub|];
        [|discriminate].
      eapply IH; [exact H|].
      destruct Hd as [Hd|Hd]; [left|right; exact Hd].
      apply dict_get_append_present.
      rewrite dict_get_setdefault.
      destruct (str_eqb tag t) eqn:E.
      * destruct (dict_get (dict_setdefault d t) t); discriminate.
      * exact Hd.
Qed.

(** A tag whose extractions all have an empty content gets no child from
    the loop. *)
Lemma xml2dict_loop_empty_tag :
  forall fuel d s r,
    _xml2dict_loop fuel d s = Some r ->
    forall tag,
      (forall value, In (tag, value) (extractions fuel s) -> value = []) ->
      dict_get r tag
      = match dict_get d tag with
        | Some l => Some l
        | None =>
            if existsb (str_eqb tag) (map fst (extractions fuel s))
            then Some [] else None
        end.
Proof.
  induction fuel as [|fuel IH]; intros d s r H tag Hempty; [discriminate|].
  cbn [_xml2dict_loop extractions] in *.
  destruct s as [|c s'].
  - inversion H; subst r. simpl. destruct (dict_get d tag); reflexivity.
  - destruct (_get_tag_value (c :: s') 0) as [[t value] rest].
    cbn [map fst existsb].
    assert (Hrest : forall value0,
               In (tag, value0) (extractions fuel rest) -> value0 = [])
      by (intros; apply Hempty; right; assumption).
    assert (Ht : str_eqb tag t = true -> strip value = []).
    { intros E. apply str_eqb_eq in E. subst t. apply Hempty. left.
      reflexivity. }
    clear Hempty.
    assert (Hdefault :
              match dict_get (dict_setdefault d t) tag with
              | Some l => Some l
              | None =>
                  if existsb (str_eqb tag) (map fst (extractions fuel rest))
                  then Some [] else None
              end
              = match dict_get d tag with
                | Some l => Some l
                | None =>
                    if str_eqb tag t
                       || existsb (str_eqb tag)
                            (map fst (extractions fuel rest))
                    then Some [] else None
                end).
    { rewrite dict_get_setdefault. destruct (str_eqb tag t) eqn:E.
      - apply str_eqb_eq in E. subst t.
        destruct (dict_get d tag); reflexivity.
      - reflexivity. }
    destruct (_get_tag_value (strip value) 0) as [[is_xml v1] r1] eqn:Hx.
    destruct is_xml as [|c1 t1].
    + destruct (strip value) as [|c2 v2] eqn:Hv.
      * rewrite (IH _ _ _ H tag Hrest). exact Hdefault.
      * destruct (str_eqb tag t) eqn:E; [discriminate (Ht eq_refl)|].
        rewrite (IH _ _ _ H tag Hrest).
        rewrite dict_get_append_other by exact E. exact Hdefault.
    + destruct (str_eqb tag t) eqn:E.
      * rewrite (Ht eq_refl) in Hx. rewrite get_tag_value_empty in Hx.
        discriminate Hx.
      * destruct (_xml2dict_loop fuel [] (strip value)) as [sub|];
          [|discriminate].
        rewrite (IH _ _ _ H tag Hrest).
        rewrite dict_get_append_other by exact E.
        rewrite dict_get_setdefault, E. exact Hdefault.
Qed.

Lemma split_acc_cons :
  forall sep x cur, exists p ps, split_acc sep x cur = p :: ps.
Proof.
  induction x as [|c x IH]; intros cur; simpl; [eauto|].
  destruct (N.eqb c sep); eauto.
Qed.

(** Looking up a tag that is not a key of the tree gives none. *)
Lemma xpath_unknown_tag :
  forall d path,
    dict_get d (first_tag path) = None -> _xpath (Tree d) path = Ok None.
Proof.
  intros d path H. unfold _xpath, first_tag in *. unfold split in *.
  destruct (split_acc_cons ch_slash path []) as [p [ps E]].
  rewrite E in *. cbn [nth] in H. now apply xpath_absent_tag.
Qed.

(** ** The parse under a recursion limit *)

Lemma children_depth_app :
  forall l c, children_depth (l ++ [c]) = Nat.max (children_depth l) (node_depth c).
Proof.
  induction l as [|x l IH]; intros c; unfold children_depth in *; simpl.
  - lia.
  - rewrite IH. lia.
Qed.

Lemma dict_depth_set_new :
  forall d k, dict_get d k = None -> dict_depth (dict_set d k []) = dict_depth d.
Proof.
  induction d as [|[k0 v0] d IH]; intros k H; simpl in *.
  - reflexivity.
  - destruct (str_eqb k k0); [discriminate|]. simpl.
    unfold dict_depth in *. simpl. rewrite IH by exact H. reflexivity.
Qed.

Lemma dict_depth_setdefault :
  forall d k, dict_depth (dict_setdefault d k) = dict_depth d.
Proof.
  intros d k. unfold dict_setdefault, dict_mem.
  destruct (dict_get d k) eqn:E; [reflexivity|].
  now apply dict_depth_set_new.
Qed.

Lemma dict_mem_setdefault :
  forall d k, dict_mem (dict_setdefault d k) k = true.
Proof.
  intros d k. unfold dict_mem. rewrite dict_get_setdefault.
  rewrite str_eqb_refl. destruct (dict_get d k); reflexivity.
Qed.

Lemma dict_depth_append :
  forall d k c,
    dict_mem d k = true ->
    dict_depth (dict_append d k c) = Nat.max (dict_depth d) (node_depth c).
Proof.
  induction d as [|[k0 v0] d IH]; intros k c H; unfold dict_mem in H;
    simpl in *.
  - discriminate.
  - destruct (str_eqb k k0) eqn:E; unfold dict_depth in *; simpl.
    + rewrite children_depth_app. lia.
    + rewrite IH; [lia|]. unfold dict_mem. exact H.
Qed.

Lemma node_depth_tree : forall d, node_depth (Tree d) = S (dict_depth d).
Proof. reflexivity. Qed.

(** The loop only adds to the dict it was given. *)
Lemma xml2dict_loop_depth_mono :
  forall fuel acc s r,
    _xml2dict_loop fuel acc s = Some r -> dict_depth acc <= dict_depth r.
Proof.
  induction fuel as [|fuel IH]; intros acc s r H; [discriminate|].
  cbn [_xml2dict_loop] in H.
  destruct s as [|c s']; [inversion H; subst; lia|].
  destruct (_get_tag_value (c :: s') 0) as [[tag value] rest].
  destruct (_get_tag_value (strip value) 0) as [[is_xml v1] r1].
  destruct is_xml as [|c1 t1].
  - destruct (strip value) as [|c2 v2].
    + apply IH in H. rewrite dict_depth_setdefault in H. exact H.
    + apply IH in H.
      rewrite dict_depth_append in H by apply dict_mem_setdefault.
      rewrite dict_depth_setdefault in H. lia.
  - destruct (_xml2dict_loop fuel [] (strip value)) as [sub|]; [|discriminate].
    apply IH in H.
    rewrite dict_depth_append in H by apply dict_mem_setdefault.
    rewrite !dict_depth_setdefault in H. lia.
Qed.

(** The limited run follows the loop: it ends with the same tree when the
    tree is nested no deeper than the limit, and with [RecursionError]
    otherwise. *)
Lemma xml2dict_limited_outcome :
  forall fuel limit acc s r,
    _xml2dict_loop fuel acc s = Some r ->
    dict_depth acc <= limit ->
    _xml2dict_limited fuel limit acc s
    = Some (if dict_depth r <=? limit then Parsed r else RecursionError).
Proof.
  induction fuel as [|fuel IH]; intros limit acc s r H Hacc; [discriminate|].
  cbn [_xml2dict_loop] in H. cbn [_xml2dict_limited].
  destruct s as [|c s'].
  { inversion H; subst. apply Nat.leb_le in Hacc. rewrite Hacc. reflexivity. }
  destruct (_get_tag_value (c :: s') 0) as [[tag value] rest].
  destruct (_get_tag_value (strip value) 0) as [[is_xml v1] r1].
  destruct is_xml as [|c1 t1].
  - destruct (strip value) as [|c2 v2].
    + apply IH; [exact H|]. rewrite dict_depth_setdefault. exact Hacc.
    + apply IH; [exact H|].
      rewrite dict_depth_append by apply dict_mem_setdefault.
      rewrite dict_depth_setdefault. simpl. lia.
  - destruct (_xml2dict_loop fuel [] (strip value)) as [sub|] eqn:Hsub;
      [|discriminate].
    pose proof (xml2dict_loop_depth_mono _ _ _ H) as Hmono.
    rewrite dict_depth_append in Hmono by apply dict_mem_setdefault.
    rewrite !dict_depth_setdefault, node_depth_tree in Hmono.
    destruct limit as [|limit'].
    + replace (dict_depth r <=? 0) with false
        by (symmetry; apply Nat.leb_gt; lia).
      reflexivity.
    + rewrite (IH limit' [] (strip value) sub Hsub) by (simpl; lia).
      destruct (dict_depth sub <=? limit') eqn:E.
      * apply Nat.leb_le in E. apply IH; [exact H|].
        rewrite dict_depth_append by apply dict_mem_setdefault.
        rewrite !dict_depth_setdefault, node_depth_tree. lia.
      * apply Nat.leb_gt in E.
        replace (dict_depth r <=? S limit') with false
          by (symmetry; apply Nat.leb_gt; lia).
        reflexivity.
Qed.

(** Three levels of nesting need room for two nested calls. *)
Lemma deep_nesting_raises :
  let s := py "<a><b><c>x</c></b></a>" in
  dict_depth (_xml2dict s false) = 2
  /\ _xml2dict_limited (fuel_bound s) 1 [] s = Some RecursionError
  /\ _xml2dict_limited (fuel_bound s) 2 [] s
     = Some (Parsed (_xml2dict s false)).
Proof. vm_compute. repeat split. Qed.

(** C10, amended: for every input string the parse ends.  Each
    extraction step returns a remainder that is strictly shorter than its
    input or has strictly fewer spaces (the latter when a leading
    self-closing [<tag />] is rewritten, where the remainder may be longer),
    and in both cases the measure [(len + 1) * 2 ^ spaces] goes down, also
    for a content that is parsed recursively.  So the loop, run with room
    for [limit] nested calls, ends within that many steps (and with any more
    fuel in the same way): with the tree when the tree is nested no deeper
    than [limit], and with [RecursionError] when it is. *)
Theorem xml2dict_terminates :
  forall xml_string limit,
    (forall extra,
       _xml2dict_limited (fuel_bound xml_string + extra) limit [] xml_string
       = Some (if dict_depth (_xml2dict xml_string false) <=? limit
               then Parsed (_xml2dict xml_string false)
               else RecursionError))
    /\ match xml_string with
       | [] => True
       | _ :: _ =>
           let '(_, value, rest) := _get_tag_value xml_string 0 in
           fuel_bound rest < fuel_bound xml_string
           /\ (length rest < length xml_string
               \/ spaces rest < spaces xml_string)
           /\ (fst (fst (_get_tag_value (strip value) 0)) = []
               \/ fuel_bound (strip value) < fuel_bound xml_string)
       end.
Proof.
  intros xml_string limit. split.
  - intros extra. apply xml2dict_limited_outcome; [|simpl; lia].
    apply xml2dict_loop_more_fuel with (fuel_bound xml_string);
      [apply xml2dict_loop_total|lia].
  - destruct xml_string as [|c s]; [exact I|].
    destruct (_get_tag_value (c :: s) 0) as [[tag value] rest] eqn:Hg.
    apply get_tag_value_measure in Hg; [|discriminate].
    destruct Hg as (H1 & H2 & H3). split; [exact H1|]. split; [exact H2|].
    destruct (fst (fst (_get_tag_value (strip value) 0))) eqn:E;
      [left; reflexivity|right; apply H3; discriminate].
Qed.

(** What does hold at the top level: in the tree parsed from any string,
    every tag extracted at the top level is a key; a tag that never has
    content there is mapped to the empty list; and a path whose first tag
    is not a key of the tree resolves to none, without an exception. *)
Lemma top_level_tags_and_first_segment :
  forall xml_string,
    let tree := _xml2dict xml_string false in
    (forall tag,
       In tag (map fst (top_level xml_string)) -> dict_get tree tag <> None)
    /\ (forall tag,
          In tag (map fst (top_level xml_string)) ->
          (forall value, In (tag, value) (top_level xml_string) ->
                         value = []) ->
          dict_get tree tag = Some [])
    /\ (forall path,
          dict_get tree (first_tag path) = None ->
          _xpath (Tree tree) path = Ok None).
Proof.
  intros xml_string tree. subst tree. unfold top_level.
  pose proof (xml2dict_loop_total xml_string) as Hloop.
  split; [|split].
  - intros tag Htag. eapply xml2dict_loop_keys; [exact Hloop|].
    right. exact Htag.
  - intros tag Htag Hempty.
    rewrite (xml2dict_loop_empty_tag _ _ _ Hloop tag Hempty). simpl.
    assert (E : existsb (str_eqb tag)
                  (map fst (extractions (fuel_bound xml_string) xml_string))
                = true).
    { apply existsb_exists. exists tag. split; [exact Htag|].
      apply str_eqb_refl. }
    rewrite E. reflexivity.
  - intros path. apply xpath_unknown_tag.
Qed.

(** C8 (the code departs from the claim and from the docstring of
    [_xpath], "None if path not found"): below a text node the test
    [tag not in xml_dict] is a substring test.  In the tree of
    [<a>xbx</a>] the tag [b] is unknown, yet the path [a/b] passes the test
    and then indexes the text, which raises [TypeError].  The same happens
    on the paths the program itself asks for: a description whose root
    holds the text "no device" makes the name lookup raise.  The other half
    of the claim fails on a self-closing element (the defect of C3): the
    tree of [<a/>] has no key [a]. *)
Theorem unknown_tag_below_text_raises :
  let tree := _xml2dict (py "<a>xbx</a>") false in
  tree = [(py "a", [Leaf (py "xbx")])]
  /\ _xpath (Tree tree) (py "a/b") = Raise TypeError
  /\ _xpath (Tree tree) (py "a/c") = Ok None
  /\ _get_friendly_name
       (Tree (_xml2dict (py "<root>no device</root>") false))
     = Raise TypeError
  /\ dict_get (_xml2dict (py "<a/>") false) (py "a") = None.
Proof. vm_compute. repeat split. Qed.

(** * Further properties *)

(** ** Extraction of one node by [_get_tag_value] *)

Lemma strip_fixed :
  forall x, lstrip x = x -> lstrip (rev x) = rev x -> strip x = x.
Proof.
  intros x H1 H2. unfold strip, rstrip. rewrite H1, H2.
  apply rev_involutive.
Qed.

Lemma startswith_nil : forall x, startswith x [] = true.
Proof. destruct x; reflexivity. Qed.

Lemma startswith_refl_app : forall p x, startswith (p ++ x) p = true.
Proof.
  induction p as [|c p IH]; intros x; simpl; [apply startswith_nil|].
  rewrite N.eqb_refl. apply IH.
Qed.

Lemma startswith_app_same :
  forall p a b, startswith (p ++ a) (p ++ b) = startswith a b.
Proof.
  induction p as [|c p IH]; intros a b; simpl; [reflexivity|].
  rewrite N.eqb_refl. apply IH.
Qed.

Lemma startswith_head :
  forall x c p, startswith x (c :: p) = true -> startswith x [c] = true.
Proof.
  intros [|d x] c p H; simpl in *; [discriminate|].
  apply andb_true_iff in H. destruct H as [H _]. rewrite H.
  apply startswith_nil.
Qed.

Lemma get_tag_value_text :
  forall x,
    startswith (strip x) (py "<") = false ->
    _get_tag_value x 0 = ([], strip x, []).
Proof.
  intros x H. unfold _get_tag_value. cbv zeta.
  change (skipn 0 (strip x)) with (strip x).
  destruct (startswith (strip x) (py "<?")) eqn:E1.
  { apply (startswith_head _ 60%N [63%N]) in E1.
    change (startswith (strip x) (py "<") = true) in E1. congruence. }
  change (skipn 0 (strip x)) with (strip x).
  destruct (startswith (strip x) (py "</")) eqn:E2.
  { apply (startswith_head _ 60%N [47%N]) in E2.
    change (startswith (strip x) (py "<") = true) in E2. congruence. }
  rewrite H. reflexivity.
Qed.

Lemma lacks_app :
  forall c a b, lacks c (a ++ b) = lacks c a && lacks c b.
Proof. intros. apply forallb_app. Qed.

Lemma skipn_prefix :
  forall (a b : str) n, n = length a -> skipn n (a ++ b) = b.
Proof.
  intros a b n ->. rewrite skipn_app, skipn_all, Nat.sub_diag. reflexivity.
Qed.

Lemma skip_to_lt_lacks :
  forall pi rest i,
    lacks ch_lt pi = true ->
    skip_to_lt (pi ++ ch_lt :: rest) i = i + length pi.
Proof.
  induction pi as [|c pi IH]; intros rest i H; simpl in *.
  - lia.
  - apply andb_true_iff in H. destruct H as [Hc Hpi].
    apply negb_true_iff in Hc. rewrite Hc, IH by exact Hpi. lia.
Qed.

Lemma read_tag_name :
  forall name rest i acc,
    lacks ch_gt name = true -> lacks ch_space name = true ->
    read_tag (name ++ rest) i false acc
    = read_tag rest (i + length name) false (acc ++ name).
Proof.
  intros name.
  induction name as [|c name IH]; intros rest i acc Hg Hs; simpl in *.
  - rewrite app_nil_r. f_equal. lia.
  - apply andb_true_iff in Hg. destruct Hg as [Hc Hg].
    apply andb_true_iff in Hs. destruct Hs as [Hc' Hs].
    apply negb_true_iff in Hc, Hc'. rewrite Hc, Hc'.
    rewrite IH by assumption. rewrite <- app_assoc. f_equal. lia.
Qed.

Lemma read_tag_attrs :
  forall a rest i acc,
    lacks ch_gt a = true ->
    read_tag (a ++ rest) i true acc = read_tag rest (i + length a) true acc.
Proof.
  induction a as [|c a IH]; intros rest i acc Hg; simpl in *.
  - f_equal. lia.
  - apply andb_true_iff in Hg. destruct Hg as [Hc Hg].
    apply negb_true_iff in Hc. rewrite Hc.
    replace (if N.eqb c ch_space then true else true) with true
      by (destruct (N.eqb c ch_space); reflexivity).
    rewrite IH by assumption. f_equal. lia.
Qed.

(** The tag-reading loop on a name followed by attributes: the name is
    kept, the attributes are dropped. *)
Lemma read_tag_open :
  forall name attrs rest i,
    lacks ch_gt name = true -> lacks ch_space name = true ->
    plain_attrs attrs = true ->
    read_tag (name ++ attrs ++ ch_gt :: rest) i false []
    = (i + length name + length attrs, name).
Proof.
  intros name attrs rest i Hg Hs Ha.
  rewrite read_tag_name by assumption. simpl app.
  destruct attrs as [|c a]; simpl in Ha.
  - simpl. f_equal. lia.
  - apply andb_true_iff in Ha. destruct Ha as [Ha _].
    apply andb_true_iff in Ha. destruct Ha as [Hc Ha].
    apply N.eqb_eq in Hc. subst c.
    change ((ch_space :: a) ++ ch_gt :: rest)
      with (ch_space :: (a ++ ch_gt :: rest)).
    cbn [read_tag]. change (N.eqb ch_space ch_gt) with false.
    change (N.eqb ch_space ch_space) with true. cbv iota.
    rewrite read_tag_attrs by assumption. simpl. f_equal. lia.
Qed.

Lemma scan_value_lacks_gt :
  forall pre rest i tag acc,
    lacks ch_gt pre = true ->
    scan_value (pre ++ rest) i tag acc
    = scan_value rest (i + length pre) tag (acc ++ pre).
Proof.
  induction pre as [|c pre IH]; intros rest i tag acc H; simpl in *.
  - rewrite app_nil_r. f_equal. lia.
  - apply andb_true_iff in H. destruct H as [Hc H].
    apply negb_true_iff in Hc. rewrite Hc. cbn [andb].
    rewrite IH by assumption. rewrite <- app_assoc. f_equal. lia.
Qed.

Lemma endswith_app : forall a b, endswith (a ++ b) b = true.
Proof.
  intros. unfold endswith. rewrite rev_app_distr. apply startswith_refl_app.
Qed.

Lemma endswith_split :
  forall u p, endswith u p = true -> exists a, u = a ++ p.
Proof.
  intros u p H. unfold endswith in H. apply startswith_app in H.
  exists (rev (skipn (length (rev p)) (rev u))).
  apply (f_equal (@rev char)) in H.
  rewrite rev_involutive, rev_app_distr, rev_involutive in H. exact H.
Qed.

Lemma contains_startswith :
  forall x p, startswith x p = true -> contains x p = true.
Proof. intros [|c x] p H; cbn [contains]; rewrite H; reflexivity. Qed.

Lemma contains_app :
  forall a p b, contains (a ++ p ++ b) p = true.
Proof.
  induction a as [|c a IH]; intros p b.
  - simpl app. apply contains_startswith. apply startswith_refl_app.
  - simpl. rewrite IH. apply orb_true_r.
Qed.

(** The content loop stops at the first occurrence of the closing
    sequence. *)
Lemma scan_value_close :
  forall content name rest i acc,
    lacks ch_gt name = true ->
    contains (acc ++ content ++ py "</" ++ name) (closing name) = false ->
    scan_value (content ++ closing name ++ rest) i name acc
    = (i + length content + length name + 2,
       slice_to_neg (acc ++ content ++ closing name) (length name + 2)).
Proof.
  induction content as [|c content IH]; intros name rest i acc Hn Hc.
  - rewrite app_nil_l. unfold closing.
    replace ((py "</" ++ name ++ py ">") ++ rest)
      with ((py "</" ++ name) ++ ch_gt :: rest)
      by (rewrite <- !app_assoc; reflexivity).
    rewrite scan_value_lacks_gt
      by (rewrite lacks_app; rewrite Hn; reflexivity).
    cbn [scan_value]. rewrite N.eqb_refl. cbn [andb].
    replace ((acc ++ py "</" ++ name) ++ [ch_gt])
      with (acc ++ py "</" ++ name ++ py ">")
      by (rewrite <- !app_assoc; reflexivity).
    rewrite endswith_app. f_equal. rewrite length_app. simpl. lia.
  - change ((c :: content) ++ closing name ++ rest)
      with (c :: (content ++ closing name ++ rest)).
    cbn [scan_value].
    destruct (N.eqb c ch_gt && endswith (acc ++ [c]) (py "</" ++ name ++ py ">"))
      eqn:E.
    + exfalso. apply andb_true_iff in E. destruct E as [_ E].
      apply endswith_split in E. destruct E as [a Ha].
      replace (acc ++ (c :: content) ++ py "</" ++ name)
        with ((acc ++ [c]) ++ content ++ py "</" ++ name) in Hc
        by (rewrite <- app_assoc; reflexivity).
      rewrite Ha in Hc. rewrite <- app_assoc in Hc.
      unfold closing in Hc. rewrite contains_app in Hc. discriminate.
    + rewrite IH; [|exact Hn|].
      * f_equal; [simpl; lia|]. rewrite <- app_assoc. reflexivity.
      * rewrite <- app_assoc. exact Hc.
Qed.

Lemma slice_closing :
  forall content name,
    slice_to_neg
      (slice_to_neg (content ++ closing name) (length name + 2)) 1
    = content.
Proof.
  intros content name. unfold closing.
  replace (length name + 2) with (S (length name + 1)) by lia.
  cbn [slice_to_neg].
  replace (content ++ py "</" ++ name ++ py ">")
    with ((content ++ [ch_lt]) ++ ch_slash :: name ++ py ">")
    by (rewrite <- app_assoc; reflexivity).
  rewrite firstn_app.
  replace (length ((content ++ [ch_lt]) ++ ch_slash :: name ++ py ">")
           - S (length name + 1))
    with (length (content ++ [ch_lt]))
    by (rewrite !length_app; simpl; rewrite length_app; simpl; lia).
  rewrite firstn_all, Nat.sub_diag. cbn [firstn]. rewrite app_nil_r.
  rewrite firstn_app, length_app. simpl length.
  replace (length content + 1 - 1) with (length content) by lia.
  rewrite firstn_all, Nat.sub_diag. simpl. apply app_nil_r.
Qed.

Lemma plain_name_spec :
  forall name,
    plain_name name = true ->
    lacks ch_gt name = true /\ lacks ch_space name = true
    /\ strip name = name
    /\ startswith name (py "?") = false
    /\ startswith name (py "/") = false.
Proof.
  intros name H. unfold plain_name in H.
  rewrite !andb_true_iff, !negb_true_iff, str_eqb_eq in H. tauto.
Qed.

(** After a plain name and plain attributes comes the ['>'], so what
    follows the ['<'] of the opening tag starts neither with ['?'] nor with
    ['/']. *)
Lemma open_body_head :
  forall name attrs tail,
    plain_name name = true -> plain_attrs attrs = true ->
    startswith (name ++ attrs ++ ch_gt :: tail) (py "?") = false
    /\ startswith (name ++ attrs ++ ch_gt :: tail) (py "/") = false.
Proof.
  intros name attrs tail Hn Ha.
  apply plain_name_spec in Hn. destruct Hn as (_ & _ & _ & Hq & Hs).
  destruct name as [|c name].
  - destruct attrs as [|d a]; [split; reflexivity|].
    cbn [plain_attrs] in Ha.
    apply andb_true_iff in Ha. destruct Ha as [Ha _].
    apply andb_true_iff in Ha. destruct Ha as [Hd _].
    apply N.eqb_eq in Hd. subst d. split; reflexivity.
  - cbn [app startswith py map String.list_ascii_of_string] in *.
    split.
    + match type of Hq with context [N.eqb ?a c] =>
        destruct (N.eqb a c) end;
        [rewrite startswith_nil in Hq; discriminate Hq|reflexivity].
    + match type of Hs with context [N.eqb ?a c] =>
        destruct (N.eqb a c) end;
        [rewrite startswith_nil in Hs; discriminate Hs|reflexivity].
Qed.

(** The rewriting of a self-closing form does not fire on an opening tag
    with plain attributes. *)
Lemma not_self_closing :
  forall name attrs tail,
    lacks ch_gt name = true -> plain_attrs attrs = true ->
    startswith (py "<" ++ name ++ attrs ++ ch_gt :: tail)
      (py "<" ++ name ++ py " />") = false.
Proof.
  intros name attrs tail Hn Ha.
  rewrite (startswith_app_same (py "<")), startswith_app_same.
  destruct attrs as [|d a]; [reflexivity|].
  cbn [plain_attrs] in Ha.
  apply andb_true_iff in Ha. destruct Ha as [Ha Hne].
  apply andb_true_iff in Ha. destruct Ha as [Hd Hlg].
  apply N.eqb_eq in Hd. subst d.
  change (startswith (ch_space :: (a ++ ch_gt :: tail))
            (ch_space :: py "/>") = false).
  cbn [startswith]. rewrite N.eqb_refl. cbn [andb].
  destruct a as [|e a]; [reflexivity|].
  cbn [app startswith py map String.list_ascii_of_string].
  match goal with |- context [N.eqb ?a e] =>
    destruct (N.eqb a e) eqn:E end; [|reflexivity].
  cbn [andb]. apply N.eqb_eq in E. subst e.
  destruct a as [|f a]; [discriminate Hne|].
  cbn [app startswith]. cbn [lacks forallb] in Hlg.
  apply andb_true_iff in Hlg. destruct Hlg as [_ Hlg].
  apply andb_true_iff in Hlg. destruct Hlg as [Hf _].
  apply negb_true_iff in Hf. rewrite N.eqb_sym in Hf.
  match goal with |- context [N.eqb ?a f] => change a with ch_gt end.
  rewrite Hf. reflexivity.
Qed.

(** One element, with everything that may stand around it. *)
Lemma element_extraction :
  forall x prolog name attrs content rest,
    plain_prolog prolog = true ->
    plain_name name = true ->
    plain_attrs attrs = true ->
    contains (content ++ py "</" ++ name) (closing name) = false ->
    strip x
    = prolog ++ py "<" ++ name ++ attrs ++ py ">" ++ content
      ++ closing name ++ rest ->
    _get_tag_value x 0 = (name, content, rest).
Proof.
  intros x prolog name attrs content rest Hp Hn Ha Hc Hx.
  pose proof (open_body_head name attrs (content ++ closing name ++ rest)
                Hn Ha) as [Hq Hs].
  destruct (plain_name_spec _ Hn) as (Hgt & Hsp & Hstrip & Hq0 & _).
  unfold _get_tag_value. cbv zeta. rewrite Hx.
  set (body := name ++ attrs ++ py ">" ++ content ++ closing name ++ rest)
    in *.
  change (name ++ attrs ++ ch_gt :: content ++ closing name ++ rest)
    with body in Hq, Hs.
  change (skipn 0 (prolog ++ py "<" ++ body)) with (prolog ++ py "<" ++ body).
  (* the index after the optional processing instruction *)
  assert (Hi0 :
    (if startswith (prolog ++ py "<" ++ body) (py "<?")
     then skip_to_lt (skipn (0 + 2) (prolog ++ py "<" ++ body)) (0 + 2)
     else 0) = length prolog).
  { destruct prolog as [|p0 prolog'].
    - simpl app. cbn [startswith py map String.list_ascii_of_string].
      rewrite N.eqb_refl. cbn [andb].
      change (startswith body (py "?")) with (startswith body (py "?")).
      cbn [py map String.list_ascii_of_string] in Hq. rewrite Hq.
      reflexivity.
    - unfold plain_prolog in Hp.
      apply andb_true_iff in Hp. destruct Hp as [Hp1 Hp2].
      pose proof (startswith_app _ _ Hp1) as Hp3.
      change (length (py "<?")) with 2 in Hp3.
      rewrite Hp3 at 1. rewrite <- app_assoc.
      rewrite startswith_refl_app.
      rewrite Hp3 at 1. rewrite <- app_assoc.
      change (0 + 2) with (length (py "<?")).
      rewrite (skipn_prefix (py "<?")) by reflexivity.
      change (py "<" ++ body) with (ch_lt :: body).
      rewrite skip_to_lt_lacks by exact Hp2.
      rewrite Hp3 at 2. rewrite length_app. reflexivity. }
  rewrite Hi0.
  rewrite (skipn_prefix prolog) by reflexivity.
  change (startswith (py "<" ++ body) (py "</"))
    with (andb true (startswith body (py "/"))).
  rewrite Hs. cbn [andb].
  change (startswith (py "<" ++ body) (py "<")) with (startswith body []).
  rewrite startswith_nil. cbn [negb].
  (* the opening tag *)
  replace (skipn (length prolog + 1) (prolog ++ py "<" ++ body)) with body
    by (symmetry; rewrite app_assoc; apply skipn_prefix;
        rewrite length_app; reflexivity).
  unfold body at 1.
  change (py ">" ++ content ++ closing name ++ rest)
    with (ch_gt :: content ++ closing name ++ rest).
  rewrite read_tag_open by assumption.
  (* no rewriting of a self-closing form *)
  assert (Hrep : startswith (prolog ++ py "<" ++ body)
                   (py "<" ++ name ++ py " />") = false).
  { destruct prolog as [|p0 prolog'].
    - apply not_self_closing; assumption.
    - unfold plain_prolog in Hp.
      apply andb_true_iff in Hp. destruct Hp as [Hp1 _].
      apply startswith_app in Hp1. rewrite Hp1. rewrite <- app_assoc.
      change (py "<?" ++ skipn (length (py "<?")) (p0 :: prolog')
              ++ py "<" ++ body)
        with (ch_lt :: 63%N :: skipn 2 (p0 :: prolog') ++ py "<" ++ body).
      change (py "<" ++ name ++ py " />") with (ch_lt :: name ++ py " />").
      cbn [startswith]. rewrite N.eqb_refl. cbn [andb].
      destruct name as [|c name']; [reflexivity|].
      cbn [app startswith].
      cbn [startswith py map String.list_ascii_of_string] in Hq0.
      rewrite N.eqb_sym.
      change (N.eqb 63 c && startswith name' [] = false) in Hq0.
      destruct (N.eqb 63 c);
        [rewrite startswith_nil in Hq0; discriminate Hq0|reflexivity]. }
  rewrite Hrep.
  (* the content and the closing tag *)
  replace (skipn (length prolog + 1 + length name + length attrs + 1)
             (prolog ++ py "<" ++ body))
    with (content ++ closing name ++ rest).
  2: { symmetry. unfold body.
       replace (prolog ++ py "<" ++ name ++ attrs ++ py ">" ++ content
                ++ closing name ++ rest)
         with ((prolog ++ py "<" ++ name ++ attrs ++ py ">")
               ++ content ++ closing name ++ rest)
         by (rewrite <- !app_assoc; reflexivity).
       apply skipn_prefix. rewrite !length_app. simpl. lia. }
  rewrite scan_value_close by assumption.
  rewrite app_nil_l, slice_closing, Hstrip.
  f_equal. unfold body.
  replace (prolog ++ py "<" ++ name ++ attrs ++ py ">" ++ content
           ++ closing name ++ rest)
    with ((prolog ++ py "<" ++ name ++ attrs ++ py ">" ++ content
           ++ closing name) ++ rest)
    by (rewrite <- !app_assoc; reflexivity).
  apply skipn_prefix. unfold closing. rewrite !length_app. simpl.
  rewrite ?length_app. simpl. lia.
Qed.

(** X1.  [_get_tag_value] on an element: after an optional processing
    instruction, an opening tag with optional attributes, a content in
    which the closing sequence does not occur, and the closing tag, the
    result is the tag name without its attributes, the content, and what
    follows the closing tag. *)
Theorem get_tag_value_element :
  forall x prolog name attrs content rest,
    plain_prolog prolog = true ->
    plain_name name = true ->
    plain_attrs attrs = true ->
    contains (content ++ py "</" ++ name) (closing name) = false ->
    strip x
    = prolog ++ py "<" ++ name ++ attrs ++ py ">" ++ content
      ++ closing name ++ rest ->
    _get_tag_value x 0 = (name, content, rest).
Proof.
  intros x prolog name attrs content rest Hp Hn Ha Hc Hx.
  apply element_extraction with (prolog := prolog) (attrs := attrs);
    assumption.
Qed.

(** X2.  [_get_tag_value] on a closing tag: the tag name up to an
    attribute-like space, an empty content, and what follows the ['>']. *)
Theorem get_tag_value_closing :
  forall x name attrs rest,
    plain_name name = true ->
    plain_attrs attrs = true ->
    strip x = py "</" ++ name ++ attrs ++ py ">" ++ rest ->
    _get_tag_value x 0 = (name, [], rest).
Proof.
  intros x name attrs rest Hn Ha Hx.
  destruct (plain_name_spec _ Hn) as (Hgt & Hsp & Hstrip & _ & _).
  unfold _get_tag_value. cbv zeta. rewrite Hx.
  change (skipn 0 (py "</" ++ name ++ attrs ++ py ">" ++ rest))
    with (py "</" ++ name ++ attrs ++ py ">" ++ rest).
  change (startswith (py "</" ++ name ++ attrs ++ py ">" ++ rest) (py "<?"))
    with false. cbv iota.
  change (skipn 0 (py "</" ++ name ++ attrs ++ py ">" ++ rest))
    with (py "</" ++ name ++ attrs ++ py ">" ++ rest).
  rewrite startswith_refl_app.
  change (skipn (0 + 2) (py "</" ++ name ++ attrs ++ py ">" ++ rest))
    with (name ++ attrs ++ ch_gt :: rest).
  rewrite read_tag_open by assumption. rewrite Hstrip. f_equal.
  replace (py "</" ++ name ++ attrs ++ py ">" ++ rest)
    with ((py "</" ++ name ++ attrs ++ py ">") ++ rest)
    by (rewrite <- !app_assoc; reflexivity).
  apply skipn_prefix. rewrite !length_app. simpl. lia.
Qed.

Lemma get_tag_value_closing_witness :
  _get_tag_value (py " </c extra>tail ") 0 = (py "c", [], py "tail").
Proof.
  apply (@get_tag_value_closing (py " </c extra>tail ") (py "c")
           (py " extra") (py "tail")); vm_compute; reflexivity.
Defined.

Lemma get_tag_value_element_witness :
  _get_tag_value
    (py "  <?xml version=1?> <a x=1 y=2><b>hi</b></a><c>z</c> ") 0
  = (py "a", py "<b>hi</b>", py "<c>z</c>").
Proof.
  apply (@get_tag_value_element
           (py "  <?xml version=1?> <a x=1 y=2><b>hi</b></a><c>z</c> ")
           (py "<?xml version=1?> ") (py "a") (py " x=1 y=2")
           (py "<b>hi</b>") (py "<c>z</c>")); vm_compute; reflexivity.
Defined.

(** The result of the loop with some fuel is the result of [_xml2dict]. *)
Lemma xml2dict_by_fuel :
  forall fuel s r,
    _xml2dict_loop fuel [] s = Some r -> _xml2dict s false = r.
Proof.
  intros fuel s r H.
  pose proof (@xml2dict_loop_more_fuel _ _ _ _ H (fuel + fuel_bound s)
                ltac:(lia)) as H1.
  pose proof (@xml2dict_loop_more_fuel _ _ _ _ (xml2dict_loop_total s)
                (fuel + fuel_bound s) ltac:(lia)) as H2.
  congruence.
Qed.

Lemma xml2dict_text_tree :
  forall x,
    x <> [] ->
    startswith (strip x) (py "<") = false ->
    _xml2dict x false
    = [([], match strip x with [] => [] | _ :: _ => [Leaf (strip x)] end)].
Proof.
  intros x Hx H.
  apply xml2dict_by_fuel with (fuel := 2).
  destruct x as [|c x']; [congruence|].
  cbn [_xml2dict_loop].
  rewrite (get_tag_value_text _ H).
  rewrite strip_idem.
  rewrite get_tag_value_strip, (get_tag_value_text _ H).
  destruct (strip (c :: x')) as [|c0 y] eqn:E; [reflexivity|].
  rewrite <- E, strip_idem. reflexivity.
Qed.

(** X3.  Input that is not markup: when the stripped input does not start
    with ['<'], [_get_tag_value] returns it whole as content, with an empty
    tag and an empty remainder, and [_xml2dict] files it under the key
    [''] (with no child when the input is only white space). *)
Theorem xml2dict_text :
  forall x,
    x <> [] ->
    startswith (strip x) (py "<") = false ->
    _get_tag_value x 0 = ([], strip x, [])
    /\ _xml2dict x false
       = [([], match strip x with [] => [] | _ :: _ => [Leaf (strip x)] end)].
Proof.
  intros x Hx H. split.
  - apply get_tag_value_text. exact H.
  - apply xml2dict_text_tree; assumption.
Qed.

Lemma xml2dict_text_witness :
  _get_tag_value (py " hello world ") 0 = ([], py "hello world", [])
  /\ _xml2dict (py " hello world ") false
     = [([], [Leaf (py "hello world")])].
Proof.
  apply (@xml2dict_text (py " hello world "));
    [discriminate|vm_compute; reflexivity].
Defined.

(** ** Round trip: fields written by [_payload_from_template], read by
       [_xml2dict] *)

Lemma contains_split :
  forall s p, contains s p = true -> exists a b, s = a ++ p ++ b.
Proof.
  induction s as [|c s IH]; intros p H; cbn [contains] in H.
  - rewrite orb_false_r in H. apply startswith_app in H.
    exists [], (skipn (length p) []). exact H.
  - apply orb_true_iff in H. destruct H as [H|H].
    + apply startswith_app in H. exists [], (skipn (length p) (c :: s)).
      exact H.
    + destruct (IH p H) as [a [b E]]. exists (c :: a), b. rewrite E.
      reflexivity.
Qed.

Lemma lacks_In :
  forall c s, lacks c s = true -> ~ In c s.
Proof.
  intros c s H Hin. unfold lacks in H. rewrite forallb_forall in H.
  specialize (H c Hin). rewrite N.eqb_refl in H. discriminate.
Qed.

Lemma contains_lacks :
  forall c s p, lacks c s = true -> In c p -> contains s p = false.
Proof.
  intros c s p Hl Hin. destruct (contains s p) eqn:E; [|reflexivity].
  exfalso. apply contains_split in E. destruct E as [a [b E]].
  apply (lacks_In _ _ Hl). rewrite E. apply in_or_app. right.
  apply in_or_app. left. exact Hin.
Qed.

Lemma plain_text_spec :
  forall v,
    plain_text v = true ->
    v <> [] /\ strip v = v /\ lacks ch_lt v = true /\ lacks ch_gt v = true.
Proof.
  intros v H. unfold plain_text in H.
  rewrite !andb_true_iff, negb_true_iff, str_eqb_eq in H.
  destruct H as [[[H1 H2] H3] H4]. repeat split; try assumption.
  intros ->. discriminate H1.
Qed.

Lemma plain_text_is_text :
  forall v, plain_text v = true -> _get_tag_value v 0 = ([], v, []).
Proof.
  intros v H. destruct (plain_text_spec _ H) as (Hne & Hs & Hlt & _).
  rewrite <- Hs at 2. apply get_tag_value_text. rewrite Hs.
  destruct v as [|c v]; [congruence|].
  cbn [lacks forallb] in Hlt. apply andb_true_iff in Hlt.
  destruct Hlt as [Hc _]. apply negb_true_iff in Hc.
  cbn [startswith py map String.list_ascii_of_string].
  rewrite N.eqb_sym. change (Ascii.N_of_ascii _) with ch_lt.
  rewrite Hc. reflexivity.
Qed.

Lemma format_fields_last :
  forall data,
    data <> [] -> exists y, format_fields data = y ++ [ch_gt].
Proof.
  induction data as [|[tag value] data IH]; intros Hne; [congruence|].
  cbn [format_fields]. destruct data as [|kv data'].
  - exists (py "<" ++ tag ++ py ">" ++ format_val value ++ py "</" ++ tag).
    cbn [format_fields]. rewrite app_nil_r. rewrite <- !app_assoc.
    reflexivity.
  - destruct IH as [y E]; [discriminate|]. rewrite E.
    eexists. rewrite app_assoc. reflexivity.
Qed.

Lemma strip_format_fields :
  forall data, strip (format_fields data) = format_fields data.
Proof.
  intros [|[tag value] data]; [reflexivity|].
  apply strip_fixed; [reflexivity|].
  destruct (@format_fields_last ((tag, value) :: data) ltac:(discriminate))
    as [y E].
  rewrite E, rev_app_distr. reflexivity.
Qed.

(** One step of the loop on serialized fields. *)
Lemma get_tag_value_field :
  forall tag value data,
    plain_field (tag, value) = true ->
    _get_tag_value (format_fields ((tag, value) :: data)) 0
    = (tag, format_val value, format_fields data).
Proof.
  intros tag value data H. unfold plain_field in H. cbn [fst snd] in H.
  apply andb_true_iff in H. destruct H as [Hn Hv].
  destruct (plain_name_spec _ Hn) as (Hgt & _).
  destruct (plain_text_spec _ Hv) as (_ & _ & _ & Hvgt).
  apply element_extraction with (prolog := []) (attrs := []);
    try assumption; try reflexivity.
  - apply contains_lacks with (c := ch_gt).
    + rewrite !lacks_app, Hvgt, Hgt. reflexivity.
    + unfold closing. apply in_or_app. right. apply in_or_app. right.
      left. reflexivity.
  - rewrite strip_format_fields. cbn [format_fields]. unfold closing.
    rewrite <- !app_assoc. reflexivity.
Qed.

Lemma xml2dict_loop_fields :
  forall data d,
    forallb plain_field data = true ->
    _xml2dict_loop (S (length data)) d (format_fields data)
    = Some (fields_dict d data).
Proof.
  induction data as [|[tag value] data IH]; intros d H; [reflexivity|].
  cbn [forallb] in H. apply andb_true_iff in H. destruct H as [Hf Hd].
  pose proof (get_tag_value_field tag value data Hf) as Hstep.
  unfold plain_field in Hf. cbn [fst snd] in Hf.
  apply andb_true_iff in Hf. destruct Hf as [_ Hv].
  pose proof (plain_text_is_text _ Hv) as Htext.
  destruct (plain_text_spec _ Hv) as (Hne & Hs & _).
  cbn [length]. cbn [_xml2dict_loop].
  destruct (format_fields ((tag, value) :: data)) as [|c0 y] eqn:E.
  { cbn [format_fields] in E. discriminate E. }
  rewrite Hstep, Hs, Htext.
  destruct (format_val value) as [|c1 v1] eqn:Ev; [congruence|].
  rewrite Hs. cbn [fields_dict]. rewrite Ev. apply IH. exact Hd.
Qed.

Lemma dict_get_append_same :
  forall d k c,
    dict_get (dict_append d k c) k
    = match dict_get d k with Some l => Some (l ++ [c]) | None => None end.
Proof.
  induction d as [|[k0 v0] d IH]; intros k c; simpl; [reflexivity|].
  destruct (str_eqb k k0) eqn:E; simpl; rewrite E; [reflexivity|apply IH].
Qed.

Lemma dict_get_fields_dict :
  forall data d tag,
    dict_get (fields_dict d data) tag
    = match dict_get d tag, leaves_for tag data with
      | Some l, leaves => Some (l ++ leaves)
      | None, [] => None
      | None, leaves => Some leaves
      end.
Proof.
  induction data as [|[t v] data IH]; intros d tag.
  - simpl. destruct (dict_get d tag); [rewrite app_nil_r|]; reflexivity.
  - cbn [fields_dict]. rewrite IH. unfold leaves_for. cbn [filter fst].
    destruct (str_eqb tag t) eqn:E.
    + apply str_eqb_eq in E. subst t.
      rewrite dict_get_append_same, dict_get_setdefault, str_eqb_refl.
      cbn [map snd].
      destruct (dict_get d tag) as [l|]; [rewrite <- app_assoc|];
        reflexivity.
    + rewrite dict_get_append_other, dict_get_setdefault, E by exact E.
      reflexivity.
Qed.

(** X4.  What the packet builder serializes, the parser reads back: for
    fields with plain names and plain text values, [_xml2dict] of the
    serialized field list is the dict built field by field, in which each
    tag maps to the leaves of its values in document order. *)
Theorem xml2dict_format_fields :
  forall data,
    forallb plain_field data = true ->
    _xml2dict (format_fields data) false = fields_dict [] data
    /\ forall tag,
         dict_get (_xml2dict (format_fields data) false) tag
         = match leaves_for tag data with
           | [] => None
           | leaves => Some leaves
           end.
Proof.
  intros data H.
  assert (E : _xml2dict (format_fields data) false = fields_dict [] data)
    by (eapply xml2dict_by_fuel, xml2dict_loop_fields, H).
  split; [exact E|]. intros tag. rewrite E, dict_get_fields_dict.
  reflexivity.
Qed.

Lemma xml2dict_format_fields_witness :
  _xml2dict
    (format_fields
       [(py "InstanceID", VInt 0); (py "DesiredVolume", VInt 35);
        (py "Channel", VStr (py "Master"))]) false
  = [(py "InstanceID", [Leaf (py "0")]);
     (py "DesiredVolume", [Leaf (py "35")]);
     (py "Channel", [Leaf (py "Master")])].
Proof.
  apply (proj1 (@xml2dict_format_fields
                  [(py "InstanceID", VInt 0); (py "DesiredVolume", VInt 35);
                   (py "Channel", VStr (py "Master"))] eq_refl)).
Defined.

(** ** A document with one root element *)

(** ** The response preamble and the entities *)

Lemma from_first_lt_app :
  forall junk body,
    lacks ch_lt junk = true ->
    from_first_lt (junk ++ body) = from_first_lt body.
Proof.
  induction junk as [|c junk IH]; intros body H; [reflexivity|].
  cbn [lacks forallb] in H. apply andb_true_iff in H. destruct H as [Hc H].
  apply negb_true_iff in Hc. simpl. rewrite Hc. now apply IH.
Qed.

Lemma from_first_lt_lacks :
  forall line, lacks ch_lt line = true -> from_first_lt line = [].
Proof.
  intros line H. rewrite <- (app_nil_r line).
  now rewrite from_first_lt_app.
Qed.

Lemma from_first_lt_starts :
  forall body, startswith body (py "<") = true -> from_first_lt body = body.
Proof.
  intros [|c body] H; [reflexivity|].
  cbn [startswith py map String.list_ascii_of_string] in H.
  apply andb_true_iff in H. destruct H as [H _]. apply N.eqb_eq in H.
  subst c. reflexivity.
Qed.

Lemma split_acc_lacks :
  forall sep b cur,
    lacks sep b = true -> split_acc sep b cur = [cur ++ b].
Proof.
  induction b as [|c b IH]; intros cur H; simpl.
  - now rewrite app_nil_r.
  - cbn [lacks forallb] in H. apply andb_true_iff in H.
    destruct H as [Hc H]. apply negb_true_iff in Hc. rewrite Hc.
    rewrite IH by exact H. rewrite <- app_assoc. reflexivity.
Qed.

Lemma split_acc_app_lacks :
  forall sep u rest cur,
    lacks sep u = true ->
    split_acc sep (u ++ rest) cur = split_acc sep rest (cur ++ u).
Proof.
  induction u as [|c u IH]; intros rest cur H; simpl.
  - now rewrite app_nil_r.
  - cbn [lacks forallb] in H. apply andb_true_iff in H.
    destruct H as [Hc H]. apply negb_true_iff in Hc. rewrite Hc.
    rewrite IH by exact H. rewrite <- app_assoc. reflexivity.
Qed.

Lemma findall_preamble :
  forall preamble body cur,
    lacks ch_lt preamble = true -> lacks ch_lt cur = true ->
    lacks ch_nl body = true -> startswith body (py "<") = true ->
    filter (fun g => negb (str_eqb g []))
      (map from_first_lt (split_acc ch_nl (preamble ++ body) cur))
    = [body].
Proof.
  induction preamble as [|c pre IH]; intros body cur Hp Hc Hb Hs.
  - simpl app. rewrite split_acc_lacks by exact Hb. cbn [map filter].
    rewrite from_first_lt_app, from_first_lt_starts by assumption.
    destruct body; [discriminate Hs|reflexivity].
  - cbn [lacks forallb] in Hp. apply andb_true_iff in Hp.
    destruct Hp as [Hc0 Hp].
    change ((c :: pre) ++ body) with (c :: (pre ++ body)).
    cbn [split_acc]. destruct (N.eqb c ch_nl).
    + cbn [map filter]. rewrite (@from_first_lt_lacks _ Hc). cbn.
      now apply IH.
    + apply IH; try assumption.
      rewrite lacks_app, Hc. cbn. rewrite Hc0. reflexivity.
Qed.

Lemma findall_no_markup :
  forall s cur,
    lacks ch_lt s = true -> lacks ch_lt cur = true ->
    filter (fun g => negb (str_eqb g []))
      (map from_first_lt (split_acc ch_nl s cur))
    = [].
Proof.
  induction s as [|c s IH]; intros cur Hs Hc.
  - simpl. now rewrite (@from_first_lt_lacks _ Hc).
  - cbn [lacks forallb] in Hs. apply andb_true_iff in Hs.
    destruct Hs as [Hc0 Hs]. cbn [split_acc]. destruct (N.eqb c ch_nl).
    + cbn [map filter]. rewrite (@from_first_lt_lacks _ Hc). cbn.
      now apply IH.
    + apply IH; [assumption|].
      rewrite lacks_app, Hc. cbn. rewrite Hc0. reflexivity.
Qed.

(** X5.  With [ignore_until_xml], whatever comes before the first ['<'] is
    dropped: a preamble without ['<'] (status line, headers, blank lines)
    followed by a one-line body that starts with ['<'] parses like the body
    alone. *)
Theorem xml2dict_ignores_preamble :
  forall preamble body,
    lacks ch_lt preamble = true ->
    lacks ch_nl body = true ->
    startswith body (py "<") = true ->
    _xml2dict (preamble ++ body) true = _xml2dict body false.
Proof.
  intros preamble body Hp Hb Hs. unfold _xml2dict at 1.
  unfold findall_from_lt, split.
  rewrite findall_preamble by (assumption || reflexivity).
  reflexivity.
Qed.

Lemma xml2dict_ignores_preamble_witness :
  _xml2dict (py "HTTP/1.1 200 OK" ++ crlf ++ py "Server: x" ++ crlf ++ crlf
             ++ py "<a><b>1</b></a>") true
  = _xml2dict (py "<a><b>1</b></a>") false.
Proof.
  apply (@xml2dict_ignores_preamble
           (py "HTTP/1.1 200 OK" ++ crlf ++ py "Server: x" ++ crlf ++ crlf)
           (py "<a><b>1</b></a>")); reflexivity.
Defined.

Lemma replace_from_absent :
  forall c old new fuel x,
    lacks c x = true -> replace_from fuel x (c :: old) new = x.
Proof.
  induction fuel as [|fuel IH]; intros x H; [reflexivity|].
  destruct x as [|d x]; [reflexivity|].
  cbn [lacks forallb] in H. apply andb_true_iff in H. destruct H as [Hd H].
  apply negb_true_iff in Hd. rewrite N.eqb_sym in Hd.
  cbn [replace_from startswith]. rewrite Hd. cbn [andb].
  f_equal. now apply IH.
Qed.

Lemma unescape_identity :
  forall xml, lacks 38%N xml = true -> _unescape_xml xml = xml.
Proof.
  intros xml H. unfold _unescape_xml, replace.
  rewrite (@replace_from_absent 38%N (py "lt;") (py "<") (length xml) xml H
           : replace_from (length xml) xml (py "&lt;") (py "<") = xml).
  rewrite (@replace_from_absent 38%N (py "gt;") (py ">") (length xml) xml H
           : replace_from (length xml) xml (py "&gt;") (py ">") = xml).
  exact (@replace_from_absent 38%N (py "quot;") [ch_quote] (length xml) xml
           H).
Qed.

(** X6.  [_unescape_xml] leaves a string without ['&'] as it is. *)
Theorem unescape_without_ampersand :
  forall xml, lacks 38%N xml = true -> _unescape_xml xml = xml.
Proof.
  intros xml H. apply unescape_identity. exact H.
Qed.

Lemma unescape_without_ampersand_witness :
  _unescape_xml (py "<a>1 < 2</a>") = py "<a>1 < 2</a>".
Proof.
  apply (@unescape_without_ampersand (py "<a>1 < 2</a>")). reflexivity.
Defined.

(** X7.  A response without any markup: when the transport works and the
    decoded response has neither ['<'] nor ['&'], [_send_tcp] returns the
    empty dict and logs nothing. *)
Theorem send_tcp_no_markup :
  forall w to payload encoded data text,
    tcp_connect w to = Ok tt ->
    str_encode payload = Ok encoded ->
    tcp_sendall w encoded = Ok tt ->
    tcp_recv w 2048 = Ok data ->
    bytes_decode w data = Ok text ->
    lacks ch_lt text = true ->
    lacks 38%N text = true ->
    _xml2dict text true = []
    /\ _send_tcp w to payload = (DataTree [], []).
Proof.
  intros w to payload encoded data text H1 H2 H3 H4 H5 Hlt Hamp.
  assert (E : _xml2dict text true = []).
  { unfold _xml2dict, findall_from_lt, split.
    rewrite findall_no_markup by (assumption || reflexivity).
    reflexivity. }
  split; [exact E|].
  unfold _send_tcp, send_tcp_try.
  rewrite H1. cbn [bind]. rewrite H2. cbn [bind]. rewrite H3. cbn [bind].
  rewrite H4. cbn [bind]. rewrite H5. cbn [bind].
  rewrite (@unescape_identity text Hamp), E. reflexivity.
Qed.

Lemma send_tcp_no_markup_witness :
  _send_tcp (Samples.world (Ok []) (Ok tt) (Ok (py "HTTP/1.1 200 OK")))
    (py "192.168.1.50", Some 80%Z) (py "x")
  = (DataTree [], []).
Proof.
  apply (proj2 (@send_tcp_no_markup
                  (Samples.world (Ok []) (Ok tt) (Ok (py "HTTP/1.1 200 OK")))
                  (py "192.168.1.50", Some 80%Z) (py "x") (py "x")
                  (py "HTTP/1.1 200 OK") (py "HTTP/1.1 200 OK")
                  eq_refl eq_refl eq_refl eq_refl eq_refl eq_refl eq_refl)).
Defined.

(** ** Path query: single steps *)

(** X8.  Below a leaf the tag test is a substring test: the walk gives none
    when the tag does not occur in the leaf text, and raises (the leaf
    cannot be indexed by a tag) when it does; it never returns a value. *)
Theorem xpath_below_leaf :
  forall s p segments,
    let tag := nth 0 (split ch_at p) [] in
    (contains s tag = false ->
     xpath_segments (Leaf s) (p :: segments) = Ok None)
    /\ (contains s tag = true ->
        xpath_segments (Leaf s) (p :: segments) = Raise TypeError
        \/ xpath_segments (Leaf s) (p :: segments) = Raise ValueError).
Proof.
  intros s p segments tag. subst tag. cbn [xpath_segments node_contains].
  split; intros H; rewrite H; cbn [negb]; [reflexivity|].
  destruct (if 1 <? length (split ch_at p) then nth 1 (split ch_at p) []
            else []) as [|c attr]; [left; reflexivity|].
  destruct (split ch_eq (c :: attr)) as [|a [|aval [|x l]]];
    try (right; reflexivity).
  left. reflexivity.
Qed.

Lemma xpath_below_leaf_witness :
  xpath_segments (Leaf (py "xbx")) [py "c"] = Ok None
  /\ (xpath_segments (Leaf (py "xbx")) [py "b"] = Raise TypeError
      \/ xpath_segments (Leaf (py "xbx")) [py "b"] = Raise ValueError).
Proof.
  split.
  - apply (proj1 (xpath_below_leaf (py "xbx") (py "c") [])). reflexivity.
  - apply (proj2 (xpath_below_leaf (py "xbx") (py "b") [])). reflexivity.
Defined.

(** A segment without predicate moves to the first child under its tag. *)
Lemma xpath_step_plain :
  forall d tag c cs segments,
    lacks ch_at tag = true ->
    dict_get d tag = Some (c :: cs) ->
    xpath_segments (Tree d) (tag :: segments) = xpath_segments c segments.
Proof.
  intros d tag c cs segments Hat Hget. cbn [xpath_segments].
  unfold split. rewrite split_acc_lacks by exact Hat.
  cbn [app nth length Nat.ltb Nat.leb node_contains node_getitem bind].
  unfold dict_mem. rewrite Hget. reflexivity.
Qed.

(** A segment [tag@a=aval] runs the predicate loop on the children under
    [tag]; the walk goes on from the selected child, or from the current
    node when the loop selects none. *)
Lemma xpath_step_predicate :
  forall d tag a aval children segments,
    lacks ch_at tag = true ->
    lacks ch_at (a ++ ch_eq :: aval) = true ->
    lacks ch_eq a = true -> lacks ch_eq aval = true ->
    dict_get d tag = Some children ->
    xpath_segments (Tree d) ((tag ++ ch_at :: a ++ ch_eq :: aval) :: segments)
    = found <- select_child children a aval ;;
      match found with
      | Some s => xpath_segments s segments
      | None => xpath_segments (Tree d) segments
      end.
Proof.
  intros d tag a aval children segments Ht Hattr Ha Hv Hget.
  cbn [xpath_segments]. unfold split.
  rewrite split_acc_app_lacks by exact Ht.
  cbn [split_acc]. rewrite N.eqb_refl.
  rewrite split_acc_lacks by exact Hattr.
  cbn [app nth length Nat.ltb Nat.leb node_contains].
  unfold dict_mem. rewrite Hget. cbn [negb].
  destruct (a ++ ch_eq :: aval) as [|c0 attr] eqn:E.
  { destruct a; discriminate E. }
  rewrite <- E. rewrite split_acc_app_lacks by exact Ha.
  cbn [split_acc]. rewrite N.eqb_refl.
  rewrite split_acc_lacks by exact Hv.
  cbn [app node_getitem bind]. rewrite Hget. reflexivity.
Qed.

(** ** The control-URL lookup *)

Lemma plain_urn_spec :
  forall urn,
    plain_urn urn = true ->
    lacks ch_slash urn = true /\ lacks ch_at urn = true
    /\ lacks ch_eq urn = true.
Proof.
  intros urn H. unfold plain_urn in H. rewrite !andb_true_iff in H. tauto.
Qed.

Lemma control_url_path :
  forall urn,
    lacks ch_slash urn = true ->
    split ch_slash
      (py "root/device/serviceList/service@serviceType=" ++ urn
       ++ py "/controlURL")
    = [py "root"; py "device"; py "serviceList";
       py "service" ++ ch_at :: py "serviceType" ++ ch_eq :: urn;
       py "controlURL"].
Proof.
  intros urn H. unfold split.
  change (py "root/device/serviceList/service@serviceType=" ++ urn
          ++ py "/controlURL")
    with (py "root/device/serviceList/"
          ++ (py "service@serviceType=" ++ urn ++ py "/controlURL")).
  change (split_acc ch_slash
            (py "root/device/serviceList/"
             ++ (py "service@serviceType=" ++ urn ++ py "/controlURL")) [])
    with (py "root" :: py "device" :: py "serviceList"
          :: split_acc ch_slash
               (py "service@serviceType=" ++ urn ++ py "/controlURL") []).
  do 3 f_equal.
  rewrite (split_acc_app_lacks ch_slash (py "service@serviceType="))
    by reflexivity.
  rewrite split_acc_app_lacks by exact H.
  reflexivity.
Qed.

(** The walk of [_get_control_url] down to the service list. *)
Lemma control_url_walk :
  forall xml rd dd sl services urn r1 r2 r3,
    plain_urn urn = true ->
    dict_get xml (py "root") = Some (Tree rd :: r1) ->
    dict_get rd (py "device") = Some (Tree dd :: r2) ->
    dict_get dd (py "serviceList") = Some (Tree sl :: r3) ->
    dict_get sl (py "service") = Some services ->
    _get_control_url (Tree xml) urn
    = found <- select_child services (py "serviceType") urn ;;
      match found with
      | Some s => xpath_segments s [py "controlURL"]
      | None => xpath_segments (Tree sl) [py "controlURL"]
      end.
Proof.
  intros xml rd dd sl services urn r1 r2 r3 Hu H1 H2 H3 H4.
  destruct (plain_urn_spec _ Hu) as (Hs & Ha & He).
  unfold _get_control_url, _xpath. rewrite control_url_path by exact Hs.
  rewrite (@xpath_step_plain xml (py "root") _ _ _ eq_refl H1).
  rewrite (@xpath_step_plain rd (py "device") _ _ _ eq_refl H2).
  rewrite (@xpath_step_plain dd (py "serviceList") _ _ _ eq_refl H3).
  apply (@xpath_step_predicate sl (py "service") (py "serviceType") urn
           services [py "controlURL"]); try reflexivity; assumption.
Qed.

(** X9.  [_get_control_url] on a description tree: the control URL is the
    first child under [controlURL] of the first service whose
    [serviceType] is exactly the URN, when the services before it all have
    a [serviceType]. *)
Theorem get_control_url_first_match :
  forall xml rd dd sl before sd after urn url r1 r2 r3 r4,
    plain_urn urn = true ->
    dict_get xml (py "root") = Some (Tree rd :: r1) ->
    dict_get rd (py "device") = Some (Tree dd :: r2) ->
    dict_get dd (py "serviceList") = Some (Tree sl :: r3) ->
    dict_get sl (py "service") = Some (before ++ Tree sd :: after) ->
    Forall (other_value (py "serviceType") urn) before ->
    dict_get sd (py "serviceType") = Some [Leaf urn] ->
    dict_get sd (py "controlURL") = Some (url :: r4) ->
    _get_control_url (Tree xml) urn = Ok (Some url).
Proof.
  intros xml rd dd sl before sd after urn url r1 r2 r3 r4
         Hu H1 H2 H3 H4 Hb Ht Hc.
  rewrite (@control_url_walk _ _ _ _ _ _ _ _ _ Hu H1 H2 H3 H4).
  rewrite (@select_child_first_match before (Tree sd) after
             (py "serviceType") urn [Leaf urn]).
  - cbn [bind].
    rewrite (@xpath_step_plain sd (py "controlURL") _ _ _ eq_refl Hc).
    reflexivity.
  - exact Hb.
  - cbn [node_getitem]. rewrite Ht. reflexivity.
  - cbn [eq_single]. apply str_eqb_refl.
Qed.

(** X10.  [_get_control_url] when no service has the URN: if every service
    has a [serviceType] and none is exactly the URN, the walk stays at the
    service list, and the result is none as long as the service list itself
    has no [controlURL] child. *)
Theorem get_control_url_no_match :
  forall xml rd dd sl services urn r1 r2 r3,
    plain_urn urn = true ->
    dict_get xml (py "root") = Some (Tree rd :: r1) ->
    dict_get rd (py "device") = Some (Tree dd :: r2) ->
    dict_get dd (py "serviceList") = Some (Tree sl :: r3) ->
    dict_get sl (py "service") = Some services ->
    Forall (other_value (py "serviceType") urn) services ->
    dict_get sl (py "controlURL") = None ->
    _get_control_url (Tree xml) urn = Ok None.
Proof.
  intros xml rd dd sl services urn r1 r2 r3 Hu H1 H2 H3 H4 Hall Hnone.
  rewrite (@control_url_walk _ _ _ _ _ _ _ _ _ Hu H1 H2 H3 H4).
  rewrite select_child_no_match by exact Hall. cbn [bind].
  apply xpath_absent_tag. exact Hnone.
Qed.

Lemma get_control_url_first_match_witness :
  _get_control_url (Tree (_xml2dict Samples.desc_full false))
    URN_RenderingControl
  = Ok (Some (Leaf (py "/rc"))).
Proof.
  eapply (@get_control_url_first_match _ _ _ _
            [Tree Samples2.service_av] Samples2.service_rc []
            URN_RenderingControl (Leaf (py "/rc")) _ _ _ []).
  - reflexivity.
  - vm_compute. reflexivity.
  - vm_compute. reflexivity.
  - vm_compute. reflexivity.
  - vm_compute. reflexivity.
  - constructor; [|constructor].
    exists [Leaf URN_AVTransport]. split; reflexivity.
  - reflexivity.
  - reflexivity.
Defined.

Lemma get_control_url_no_match_witness :
  _get_control_url (Tree (_xml2dict Samples.desc_full false))
    (py "urn:schemas-upnp-org:service:ConnectionManager:1")
  = Ok None.
Proof.
  eapply (@get_control_url_no_match _ _ _ _
            [Tree Samples2.service_av; Tree Samples2.service_rc]
            (py "urn:schemas-upnp-org:service:ConnectionManager:1") _ _ _).
  - reflexivity.
  - vm_compute. reflexivity.
  - vm_compute. reflexivity.
  - vm_compute. reflexivity.
  - vm_compute. reflexivity.
  - repeat constructor.
    + exists [Leaf URN_AVTransport]. split; reflexivity.
    + exists [Leaf URN_RenderingControl]. split; reflexivity.
  - reflexivity.
Defined.

(** ** The constructor on good and on unusable descriptions *)

(** X11.  When every step of the [try] block succeeds, the device carries
    what was extracted: the location and its port, the name, both control
    URLs, and [has_av_transport] exactly when the AVTransport URL is not
    none; nothing is logged and the protocol generation is 1. *)
Theorem init_success :
  forall w raw ip0 raw' loc p page doc n cu rcu,
    bytes_decode w raw = Ok raw' ->
    _get_location_url w raw' = Ok loc ->
    _get_port w loc = Ok p ->
    urlopen_read w loc = Ok page ->
    bytes_decode w page = Ok doc ->
    _get_friendly_name (Tree (_xml2dict doc false)) = Ok n ->
    _get_control_url (Tree (_xml2dict doc false)) URN_AVTransport = Ok cu ->
    _get_control_url (Tree (_xml2dict doc false)) URN_RenderingControl
      = Ok rcu ->
    DLNADevice__init__ w raw ip0
    = ({| ip := ip0; ssdp_version := 1; port := Some p; name := n;
          control_url := cu; rendering_control_url := rcu;
          has_av_transport :=
            match cu with Some _ => true | None => false end;
          location := Some loc |}, []).
Proof.
  intros w raw ip0 raw' loc p page doc n cu rcu H1 H2 H3 H4 H5 H6 H7 H8.
  unfold DLNADevice__init__, init_try.
  rewrite H1, bind_call_ok, H2, bind_call_ok, bind_assign.
  rewrite H3, bind_call_ok, bind_assign, H4, bind_call_ok.
  rewrite H5, bind_call_ok. cbv zeta.
  rewrite H6, bind_call_ok, bind_assign, H7, bind_call_ok, bind_assign.
  rewrite H8, bind_call_ok, bind_assign. reflexivity.
Qed.

Lemma init_success_witness :
  fst (DLNADevice__init__
         (Samples.world (Ok Samples.desc_full) (Ok tt) (Ok []))
         Samples.response (py "192.168.1.50"))
  = Samples.tv (py "/ctrl") (py "/rc").
Proof.
  rewrite (@init_success
             (Samples.world (Ok Samples.desc_full) (Ok tt) (Ok []))
             Samples.response (py "192.168.1.50") Samples.response
             (py "http://192.168.1.50:80/desc.xml") 80%Z Samples.desc_full
             Samples.desc_full (Leaf (py "TV")) (Some (Leaf (py "/ctrl")))
             (Some (Leaf (py "/rc"))));
    try reflexivity; vm_compute; reflexivity.
Defined.

Lemma xml2dict_not_markup_no_root :
  forall doc,
    startswith (strip doc) (py "<") = false ->
    dict_get (_xml2dict doc false) (py "root") = None.
Proof.
  intros doc H. destruct doc as [|c doc]; [reflexivity|].
  rewrite (@xml2dict_text_tree (c :: doc) ltac:(discriminate) H).
  reflexivity.
Qed.

(** X12.  A description that is not markup: when the fetched document,
    stripped, does not start with ['<'], every lookup resolves to none
    without an exception, so the device gets the name "Unknown", no control
    URLs and [has_av_transport] false, and no warning is logged. *)
Theorem init_description_not_markup :
  forall w raw ip0 doc,
    fetch_description w raw = Ok doc ->
    startswith (strip doc) (py "<") = false ->
    let d := fst (DLNADevice__init__ w raw ip0) in
    name d = Leaf (py "Unknown") /\ control_url d = None
    /\ rendering_control_url d = None /\ has_av_transport d = false
    /\ snd (DLNADevice__init__ w raw ip0) = [].
Proof.
  intros w raw ip0 doc Hdoc Htext. cbv zeta.
  pose proof (xml2dict_not_markup_no_root _ Htext) as Hroot.
  unfold DLNADevice__init__.
  pose proof (init_try_fetch w raw ip0) as H. rewrite Hdoc in H.
  cbv zeta in H. destruct H as [d0 (Hip & Hn & Hc & Hr & Hh & Htry)].
  rewrite Htry. clear Htry.
  assert (E1 : _get_friendly_name (Tree (_xml2dict doc false))
               = Ok (Leaf (py "Unknown"))).
  { unfold _get_friendly_name.
    rewrite xpath_unknown_tag by exact Hroot. reflexivity. }
  assert (E2 : forall urn,
             first_tag (py "root/device/serviceList/service@serviceType="
                        ++ urn ++ py "/controlURL") = py "root")
    by reflexivity.
  assert (E3 : forall urn,
             _get_control_url (Tree (_xml2dict doc false)) urn = Ok None).
  { intros urn. unfold _get_control_url. apply xpath_unknown_tag.
    rewrite E2. exact Hroot. }
  rewrite E1, bind_call_ok, bind_assign, E3, bind_call_ok, bind_assign.
  rewrite E3, bind_call_ok, bind_assign.
  unfold Init.assign. destruct d0; cbn in *. repeat split; congruence.
Qed.

Lemma init_description_not_markup_witness :
  let w := Samples.world (Ok (py "404 Not Found")) (Ok tt) (Ok []) in
  let d := fst (DLNADevice__init__ w Samples.response (py "192.168.1.50")) in
  name d = Leaf (py "Unknown") /\ control_url d = None
  /\ rendering_control_url d = None /\ has_av_transport d = false
  /\ snd (DLNADevice__init__ w Samples.response (py "192.168.1.50")) = [].
Proof.
  cbv zeta.
  apply (@init_description_not_markup
           (Samples.world (Ok (py "404 Not Found")) (Ok tt) (Ok []))
           Samples.response (py "192.168.1.50") (py "404 Not Found"));
    vm_compute; reflexivity.
Defined.

(** ** Packets of the action methods *)

Lemma create_packet_request :
  forall w self action data,
    soap_request w (_create_packet w self action data)
      (fst (packet_target self action)) (snd (packet_target self action))
      action data.
Proof.
  intros w self action data. unfold soap_request, _create_packet, packet_lines.
  destruct (packet_target self action) as [url urn]. cbn [fst snd].
  rewrite payload_split.
  exists (py "User-Agent: " ++ __file__ w ++ py "/" ++ __version__ ++ crlf
          ++ py "Accept: */*" ++ crlf
          ++ py "Content-Type: text/xml; charset=" ++ [ch_quote]
          ++ py "utf-8" ++ [ch_quote] ++ crlf
          ++ py "HOST: " ++ ip self ++ py ":" ++ format_port (port self)
          ++ crlf
          ++ py "Content-Length: "
          ++ str_of_Z
               (Z.of_nat
                  (length (envelope_head action urn ++ format_fields data
                           ++ envelope_tail action)))).
  cbn [join]. rewrite <- !app_assoc. reflexivity.
Qed.

(** The envelope of [set_volume(35, instance_id)], as the template spells
    it. *)
Lemma set_volume_35_payload :
  forall instance_id urn,
    _payload_from_template (py "SetVolume")
      [(py "InstanceID", instance_id); (py "DesiredVolume", VInt 35);
       (py "Channel", VStr (py "Master"))] urn
    = py "<?xml version=" ++ [ch_quote] ++ py "1.0" ++ [ch_quote]
      ++ py " encoding=" ++ [ch_quote] ++ py "utf-8" ++ [ch_quote]
      ++ py "?>" ++ [ch_nl]
      ++ py "         <s:Envelope xmlns:s=" ++ [ch_quote]
      ++ py "http://schemas.xmlsoap.org/soap/envelope/" ++ [ch_quote]
      ++ py " s:encodingStyle=" ++ [ch_quote]
      ++ py "http://schemas.xmlsoap.org/soap/encoding/" ++ [ch_quote]
      ++ py ">" ++ [ch_nl]
      ++ py "            <s:Body>" ++ [ch_nl]
      ++ py "               <u:SetVolume xmlns:u=" ++ [ch_quote] ++ urn
      ++ [ch_quote] ++ py ">" ++ [ch_nl]
      ++ py "                  <InstanceID>" ++ format_val instance_id
      ++ py "</InstanceID>"
      ++ py "<DesiredVolume>35</DesiredVolume>"
      ++ py "<Channel>Master</Channel>" ++ [ch_nl]
      ++ py "               </u:SetVolume>" ++ [ch_nl]
      ++ py "            </s:Body>" ++ [ch_nl]
      ++ py "         </s:Envelope>".
Proof.
  intros instance_id urn. rewrite payload_split.
  unfold envelope_head, envelope_tail. cbn [format_fields].
  repeat rewrite <- app_assoc. reflexivity.
Qed.

Lemma in_volume_actions :
  forall action,
    In action [py "SetVolume"; py "SetMute"; py "GetVolume"] <->
    existsb (str_eqb action) [py "SetVolume"; py "SetMute"; py "GetVolume"]
    = true.
Proof.
  intros action. rewrite existsb_exists. split.
  - intros H. exists action. split; [exact H|apply str_eqb_refl].
  - intros [x [Hx E]]. apply str_eqb_eq in E. subst x. exact Hx.
Qed.

(** C7: for every device, the packet of [set_volume(35)] is the CR LF join
    of ten lines: the POST line to the RenderingControl endpoint, the
    headers with the SOAPACTION that names the RenderingControl URN of the
    device's generation (never an AVTransport URN) and [SetVolume], an
    empty line, and the SOAP envelope: the XML declaration, [s:Envelope],
    [s:Body] and the [u:SetVolume] element of that URN, which holds
    [<DesiredVolume>35</DesiredVolume>] between the instance and the
    channel.  The rule behind it: [SetVolume], [SetMute] and [GetVolume]
    are posted to the RenderingControl endpoint with the RenderingControl
    URN, every other action to the AVTransport endpoint with the
    AVTransport URN. *)
Theorem set_volume_35_packet :
  forall w self instance_id,
    let urn := URN_RenderingControl_Fmt (ssdp_version self) in
    let envelope :=
      py "<?xml version=" ++ [ch_quote] ++ py "1.0" ++ [ch_quote]
      ++ py " encoding=" ++ [ch_quote] ++ py "utf-8" ++ [ch_quote]
      ++ py "?>" ++ [ch_nl]
      ++ py "         <s:Envelope xmlns:s=" ++ [ch_quote]
      ++ py "http://schemas.xmlsoap.org/soap/envelope/" ++ [ch_quote]
      ++ py " s:encodingStyle=" ++ [ch_quote]
      ++ py "http://schemas.xmlsoap.org/soap/encoding/" ++ [ch_quote]
      ++ py ">" ++ [ch_nl]
      ++ py "            <s:Body>" ++ [ch_nl]
      ++ py "               <u:SetVolume xmlns:u=" ++ [ch_quote] ++ urn
      ++ [ch_quote] ++ py ">" ++ [ch_nl]
      ++ py "                  <InstanceID>" ++ format_val instance_id
      ++ py "</InstanceID>"
      ++ py "<DesiredVolume>35</DesiredVolume>"
      ++ py "<Channel>Master</Channel>" ++ [ch_nl]
      ++ py "               </u:SetVolume>" ++ [ch_nl]
      ++ py "            </s:Body>" ++ [ch_nl]
      ++ py "         </s:Envelope>" in
    set_volume_packet w self (VInt 35) instance_id
    = join crlf
        [ py "POST " ++ format_node w (rendering_control_url self)
            ++ py " HTTP/1.1";
          py "User-Agent: " ++ __file__ w ++ py "/0.15.0";
          py "Accept: */*";
          py "Content-Type: text/xml; charset=" ++ [ch_quote] ++ py "utf-8"
            ++ [ch_quote];
          py "HOST: " ++ ip self ++ py ":" ++ format_port (port self);
          py "Content-Length: " ++ str_of_Z (Z.of_nat (length envelope));
          py "SOAPACTION: " ++ [ch_quote] ++ urn ++ py "#SetVolume"
            ++ [ch_quote];
          py "Connection: close";
          [];
          envelope ]
    /\ (forall v, urn <> URN_AVTransport_Fmt v)
    /\ (forall action data,
          In action [py "SetVolume"; py "SetMute"; py "GetVolume"] ->
          soap_request w (_create_packet w self action data)
            (rendering_control_url self) urn action data)
    /\ (forall action data,
          ~ In action [py "SetVolume"; py "SetMute"; py "GetVolume"] ->
          soap_request w (_create_packet w self action data)
            (control_url self) (URN_AVTransport_Fmt (ssdp_version self))
            action data).
Proof.
  intros w self instance_id urn envelope.
  split; [|split; [|split]].
  - unfold set_volume_packet, _create_packet, packet_lines.
    change (packet_target self (py "SetVolume"))
      with (rendering_control_url self, urn).
    cbv iota beta zeta.
    rewrite set_volume_35_payload. reflexivity.
  - intro v. apply urn_rendering_is_not_avtransport.
  - intros action data H. apply in_volume_actions in H.
    pose proof (create_packet_request w self action data) as R.
    unfold packet_target in R. rewrite H in R. exact R.
  - intros action data H.
    pose proof (create_packet_request w self action data) as R.
    unfold packet_target in R.
    destruct (existsb (str_eqb action)
                [py "SetVolume"; py "SetMute"; py "GetVolume"]) eqn:E.
    + exfalso. apply H. apply in_volume_actions. exact E.
    + exact R.
Qed.

Lemma set_volume_35_packet_witness :
  let w := Samples.world (Ok []) (Ok tt) (Ok []) in
  let self := Samples.tv (py "/ctrl") (py "/rc") in
  soap_request w
    (_create_packet w self (py "SetMute")
       [(py "InstanceID", VInt 0); (py "DesiredMute", VStr (py "1"))])
    (Some (Leaf (py "/rc")))
    (py "urn:schemas-upnp-org:service:RenderingControl:1") (py "SetMute")
    [(py "InstanceID", VInt 0); (py "DesiredMute", VStr (py "1"))]
  /\ soap_request w
       (_create_packet w self (py "Play")
          [(py "InstanceID", VInt 0); (py "Speed", VInt 1)])
       (Some (Leaf (py "/ctrl")))
       (py "urn:schemas-upnp-org:service:AVTransport:1") (py "Play")
       [(py "InstanceID", VInt 0); (py "Speed", VInt 1)].
Proof.
  cbv zeta.
  pose proof (set_volume_35_packet
                (Samples.world (Ok []) (Ok tt) (Ok []))
                (Samples.tv (py "/ctrl") (py "/rc")) (VInt 0)) as H.
  cbv zeta in H. destruct H as (_ & _ & Hrc & Hav).
  split.
  - apply Hrc. simpl. right. left. reflexivity.
  - apply Hav. simpl. intros [H|[H|[H|[]]]]; discriminate H.
Defined.

(** X13.  Which endpoint each method addresses: the packets of
    [set_volume], [get_volume], [mute] and [unmute] are POSTs to the
    RenderingControl URL with the RenderingControl URN of the device's
    generation, [mute] with [DesiredMute] 1 and [unmute] with 0; those of
    [play_media], [resume], [pause], [stop], [info], [media_info] and
    [position_info] go to the AVTransport URL with the AVTransport URN. *)
Theorem method_packets :
  forall w self volume url instance_id,
    let rc := rendering_control_url self in
    let rc_urn := URN_RenderingControl_Fmt (ssdp_version self) in
    let av := control_url self in
    let av_urn := URN_AVTransport_Fmt (ssdp_version self) in
    let master := (py "Channel", VStr (py "Master")) in
    let id := (py "InstanceID", instance_id) in
    soap_request w (set_volume_packet w self volume instance_id) rc rc_urn
      (py "SetVolume") [id; (py "DesiredVolume", volume); master]
    /\ soap_request w (get_volume_packet w self instance_id) rc rc_urn
         (py "GetVolume") [id; master]
    /\ soap_request w (mute_packet w self instance_id) rc rc_urn
         (py "SetMute") [id; (py "DesiredMute", VStr (py "1")); master]
    /\ soap_request w (unmute_packet w self instance_id) rc rc_urn
         (py "SetMute") [id; (py "DesiredMute", VStr (py "0")); master]
    /\ soap_request w (play_media_packet w self url instance_id) av av_urn
         (py "SetAVTransportURI")
         [id; (py "CurrentURI", VStr url);
          (py "CurrentURIMetaData", VStr [])]
    /\ soap_request w (resume_packet w self instance_id) av av_urn
         (py "Play") [id; (py "Speed", VInt 1)]
    /\ soap_request w (pause_packet w self instance_id) av av_urn
         (py "Pause") [id; (py "Speed", VInt 1)]
    /\ soap_request w (stop_packet w self instance_id) av av_urn
         (py "Stop") [id; (py "Speed", VInt 1)]
    /\ soap_request w (info_packet w self instance_id) av av_urn
         (py "GetTransportInfo") [id]
    /\ soap_request w (media_info_packet w self instance_id) av av_urn
         (py "GetMediaInfo") [id]
    /\ soap_request w (position_info_packet w self instance_id) av av_urn
         (py "GetPositionInfo") [id].
Proof.
  intros. repeat split; apply create_packet_request.
Qed.

(** X14.  [play_media] with [autoplay] (given or left at its default)
    calls [_send_tcp] twice, each time with [(self.ip, self.port)]: with
    the SetAVTransportURI packet, and then with the Play packet of
    [self.resume()], which addresses instance 0 whatever [instance_id] was
    given to [play_media].  With [autoplay] false only the first call is
    made. *)
Theorem play_media_autoplay_instance :
  forall w self url instance_id,
    map sent_packet (play_media w self url (Some instance_id) (Some false))
    = [play_media_packet w self url instance_id]
    /\ exists play,
         map sent_packet (play_media w self url (Some instance_id) None)
         = [play_media_packet w self url instance_id; play]
         /\ map sent_packet
              (play_media w self url (Some instance_id) (Some true))
            = [play_media_packet w self url instance_id; play]
         /\ map sent_packet (resume w self (Some (VInt 0))) = [play]
         /\ soap_request w play (control_url self)
              (URN_AVTransport_Fmt (ssdp_version self)) (py "Play")
              [(py "InstanceID", VInt 0); (py "Speed", VInt 1)]
         /\ Forall (fun c => sent_to c = (ip self, port self))
              (play_media w self url (Some instance_id) None).
Proof.
  intros w self url instance_id. split; [reflexivity|].
  exists (_create_packet w self (py "Play")
            [(py "InstanceID", VInt 0); (py "Speed", VInt 1)]).
  split; [reflexivity|]. split; [reflexivity|]. split; [reflexivity|].
  split; [apply create_packet_request|].
  repeat constructor.
Qed.

(** X15.  The [Content-Length] header of every packet is the number of
    code points of the envelope.  The UTF-8 body that is sent is never
    shorter, and it has exactly that many octets if and only if the
    envelope is pure ASCII. *)
Theorem content_length_and_octets :
  forall w self action data body,
    let lines := packet_lines w self action data in
    let payload :=
      _payload_from_template action data (snd (packet_target self action)) in
    str_encode payload = Ok body ->
    nth 9 lines [] = payload
    /\ nth 5 lines []
       = py "Content-Length: " ++ str_of_Z (Z.of_nat (length payload))
    /\ length payload <= length body
    /\ (length body = length payload
        <-> forallb (fun c => (c <? 128)%N) payload = true).
Proof.
  intros w self action data body lines payload H.
  assert (E : nth 9 lines [] = payload).
  { unfold lines, payload, packet_lines.
    destruct (packet_target self action). reflexivity. }
  split; [exact E|]. split.
  - rewrite <- E. apply content_length_is_len.
  - apply str_encode_length. exact H.
Qed.

Lemma content_length_and_octets_witness :
  let w := Samples.world (Ok []) (Ok tt) (Ok []) in
  let self := Samples.tv (py "/ctrl") (py "/rc") in
  nth 5 (packet_lines w self (py "Stop")
           [(py "InstanceID", VInt 0); (py "Speed", VInt 1)]) []
  = py "Content-Length: 401".
Proof.
  cbv zeta.
  rewrite (proj1 (proj2 (@content_length_and_octets
     (Samples.world (Ok []) (Ok tt) (Ok []))
     (Samples.tv (py "/ctrl") (py "/rc")) (py "Stop")
     [(py "InstanceID", VInt 0); (py "Speed", VInt 1)]
     (match str_encode
              (_payload_from_template (py "Stop")
                 [(py "InstanceID", VInt 0); (py "Speed", VInt 1)]
                 (URN_AVTransport_Fmt 1))
      with Ok b => b | Raise _ => [] end)
     ltac:(vm_compute; reflexivity)))).
  vm_compute. reflexivity.
Defined.

(** ** The discovery thread *)

(** X18.  In non-blocking mode the discovery thread ends as a blocking call
    does: it sends the M-SEARCH datagram and stops with the empty set,
    before any tick, without calling the callback. *)
Theorem get_dlnas_thread_ends_at_once :
  forall w clock0 ticks scan_for st mx v callback,
    get_dlnas w clock0 ticks scan_for st mx v false callback
    = match str_encode (msearch_payload w (st v) mx) with
      | Raise e => Some (StopHandle (Raise e), [])
      | Ok encoded =>
          match udp_sendto w encoded SSDP_GROUP with
          | Raise e => Some (StopHandle (Raise e), [])
          | Ok _ => Some (StopHandle (Ok []), [EvSendto encoded])
          end
      end.
Proof.
  intros. unfold get_dlnas, _discovery.
  destruct (str_encode _) as [encoded|e]; [|reflexivity].
  destruct (udp_sendto _ _ _); [|reflexivity].
  rewrite discovery_loop_not_scanning. reflexivity.
Qed.

(** The tree of a one-element document. *)
Lemma single_element_tree :
  forall x prolog name attrs content,
    plain_prolog prolog = true ->
    plain_name name = true ->
    plain_attrs attrs = true ->
    contains (content ++ py "</" ++ name) (closing name) = false ->
    strip x
    = prolog ++ py "<" ++ name ++ attrs ++ py ">" ++ content
      ++ closing name ->
    _xml2dict x false
    = [(name,
        match fst (fst (_get_tag_value (strip content) 0)) with
        | _ :: _ => [Tree (_xml2dict (strip content) false)]
        | [] =>
            match strip content with
            | [] => []
            | _ :: _ => [Leaf (strip content)]
            end
        end)].
Proof.
  intros x prolog name attrs content Hp Hn Ha Hc Hx.
  assert (Hstep : _get_tag_value x 0 = (name, content, [])).
  { apply element_extraction with (prolog := prolog) (attrs := attrs);
      try assumption.
    rewrite Hx, app_nil_r. reflexivity. }
  apply xml2dict_by_fuel with (fuel := S (fuel_bound (strip content))).
  destruct x as [|c0 x'].
  { exfalso. change (strip []) with (@nil char) in Hx.
    destruct prolog; discriminate Hx. }
  cbn [_xml2dict_loop]. rewrite Hstep, strip_idem.
  pose proof (fuel_bound_pos (strip content)) as Hpos.
  destruct (_get_tag_value (strip content) 0) as [[is_xml v1] r1].
  cbn [fst].
  assert (Hdef : dict_setdefault [] name = [(name, [])]) by reflexivity.
  assert (Happ : forall c, dict_append [(name, [])] name c = [(name, [c])]).
  { intros c. cbn [dict_append]. rewrite str_eqb_refl. reflexivity. }
  destruct is_xml as [|c1 t1].
  - rewrite Hdef. destruct (strip content) as [|c2 v2] eqn:Ev.
    + destruct (fuel_bound []) eqn:Ef; [discriminate Ef|]. reflexivity.
    + rewrite Happ.
      destruct (fuel_bound (c2 :: v2)) eqn:Ef; [lia|]. reflexivity.
  - rewrite xml2dict_loop_total, Hdef.
    assert (Hdef2 : dict_setdefault [(name, [])] name = [(name, [])]).
    { unfold dict_setdefault, dict_mem. cbn [dict_get].
      rewrite str_eqb_refl. reflexivity. }
    rewrite Hdef2, Happ.
    destruct (fuel_bound (strip content)) eqn:Ef; [lia|]. reflexivity.
Qed.



Lemma strip_element :
  forall name middle,
    strip (py "<" ++ name ++ middle ++ py ">")
    = py "<" ++ name ++ middle ++ py ">".
Proof.
  intros name middle. apply strip_fixed; [reflexivity|].
  replace (py "<" ++ name ++ middle ++ py ">")
    with ((py "<" ++ name ++ middle) ++ [ch_gt])
    by (rewrite <- !app_assoc; reflexivity).
  rewrite rev_app_distr. reflexivity.
Qed.

(** X20.  Parse, then query: for a plain tag name without ['/'] and ['@']
    and a plain text, the path [name] on the tree of
    [<name>text</name>] resolves to the text. *)
Theorem xpath_of_parsed_element :
  forall name text,
    plain_name name = true ->
    lacks ch_slash name = true -> lacks ch_at name = true ->
    plain_text text = true ->
    _xpath (Tree (_xml2dict (py "<" ++ name ++ py ">" ++ text
                             ++ closing name) false)) name
    = Ok (Some (Leaf text)).
Proof.
  intros name text Hn Hsl Hat Ht.
  destruct (plain_name_spec _ Hn) as (Hgt & _).
  destruct (plain_text_spec _ Ht) as (Hne & Hs & _ & Htgt).
  rewrite (@single_element_tree _ [] name [] text); try reflexivity;
    try assumption.
  - rewrite Hs, (plain_text_is_text _ Ht). cbn [fst].
    destruct text as [|c t]; [congruence|].
    unfold _xpath, split. rewrite split_acc_lacks by exact Hsl.
    cbn [app]. apply (@xpath_step_plain _ name (Leaf (c :: t)) [] []).
    + exact Hat.
    + cbn [dict_get]. rewrite str_eqb_refl. reflexivity.
  - apply contains_lacks with (c := ch_gt).
    + rewrite !lacks_app, Htgt, Hgt. reflexivity.
    + unfold closing. apply in_or_app. right. apply in_or_app. right.
      left. reflexivity.
  - unfold closing.
    replace (py "<" ++ name ++ py ">" ++ text ++ py "</" ++ name ++ py ">")
      with (py "<" ++ name ++ (py ">" ++ text ++ py "</" ++ name) ++ py ">")
      by (rewrite <- !app_assoc; reflexivity).
    rewrite strip_element. rewrite <- !app_assoc. reflexivity.
Qed.

Lemma xpath_of_parsed_element_witness :
  _xpath (Tree (_xml2dict (py "<friendlyName>Living Room TV</friendlyName>")
                  false)) (py "friendlyName")
  = Ok (Some (Leaf (py "Living Room TV"))).
Proof.
  apply (@xpath_of_parsed_element (py "friendlyName")
           (py "Living Room TV")); reflexivity.
Defined.
